(** * Histogram emission model of the whisker HMM (hmm.py)

    A shallow embedding of [EmmissionDistributions], [EDTwoState],
    [EDMultiState] and [LeftRightModel] of hmm.py.

    Numbers.  The program computes in float64.  Feature values, bin edges,
    counts and linear-space probabilities are modelled as exact rationals
    ([Q]); the stored base-2 logarithms are real numbers ([R]).  Rounding is
    not modelled: every statement below is about the exact arithmetic the
    program approximates.

    Containers.  Dictionaries the program only reads in iteration order
    (the whisker table [wvd], the trajectory table [traj]) are association
    lists in that order; dictionaries and sets the program builds are
    [gmap]s and [gset]s. *)

From Stdlib Require Import ZArith QArith Qround Qminmax Qreals Reals Lra Lia.
From stdpp Require Import base option list gmap strings pretty fin_maps fin_sets.

(** ** The numpy operations the program calls *)

Module Numpy.

(** [linspace(a, b, n)]: [n] evenly spaced samples of [[a, b]], both ends
    included, so consecutive samples are [(b - a) / (n - 1)] apart. *)
Definition linspace (a b : Q) (n : nat) : list Q :=
  map (fun k : nat =>
         (a + inject_Z (Z.of_nat k) * ((b - a) / inject_Z (Z.of_nat (n - 1))))%Q)
      (seq 0 n).

(** [v.min()] and [v.max()]; both raise [ValueError] on an empty array. *)
Definition amin (v : list Q) : option Q :=
  match v with
  | [] => None
  | x :: l => Some (fold_left Qmin l x)
  end.

Definition amax (v : list Q) : option Q :=
  match v with
  | [] => None
  | x :: l => Some (fold_left Qmax l x)
  end.

(** Membership of [x] in the bin with edges [lo] and [hi]: half-open
    [[lo, hi)], except for the last bin, which is closed [[lo, hi]]. *)
Definition in_bin (lo hi : Q) (last : bool) (x : Q) : bool :=
  Qle_bool lo x && (if last then Qle_bool x hi else negb (Qle_bool hi x)).

Definition count_if (p : Q -> bool) (a : list Q) : nat :=
  length (List.filter p a).

(** [histogram(a, bins = edges)[0]] for an array of bin edges:
    [length edges - 1] counts. *)
Fixpoint histogram (a edges : list Q) : list nat :=
  match edges with
  | lo :: ((hi :: rest) as tl) =>
      count_if (in_bin lo hi (match rest with [] => true | _ => false end)) a
      :: histogram a tl
  | _ => []
  end.

(** [v[mask]] for a boolean mask. *)
Fixpoint compress {A} (mask : list bool) (v : list A) : list A :=
  match mask, v with
  | m :: mask', x :: v' => if m then x :: compress mask' v' else compress mask' v'
  | _, _ => []
  end.

Definition Qsum (v : list Q) : Q := fold_right Qplus 0%Q v.

Definition Rsum (v : list R) : R := fold_right Rplus 0%R v.

(** [log2] on the positive reals. *)
Definition log2 (x : R) : R := (ln x / ln 2)%R.

(** [2 ** x]. *)
Definition exp2 (x : R) : R := Rpower 2 x.

End Numpy.

(** ** Python sequence indexing *)

(** The position a Python index [j] denotes in a sequence of length [len]:
    a negative [j] counts from the end; an index outside [[-len, len)]
    raises [IndexError] ([None]). *)
Definition py_index (len : nat) (j : Z) : option nat :=
  if (0 <=? j)%Z then
    if (j <? Z.of_nat len)%Z then Some (Z.to_nat j) else None
  else if (- Z.of_nat len <=? j)%Z then Some (Z.to_nat (Z.of_nat len + j))
  else None.

(** [l[j]] *)
Definition getitem {A} (l : list A) (j : Z) : option A :=
  i ← py_index (length l) j; l !! i.

(** [list(enumerate(l))]. *)
Definition enumerate {A} (l : list A) : list (nat * A) :=
  imap pair l.

(** ** Training data *)

(** [wvd]: frame id -> (segment id -> segment), in iteration order. *)
Definition WVD (Seg : Type) : Type := list (Z * list (Z * Seg)).

(** [traj]: trajectory id -> (frame id -> segment id), in iteration order. *)
Definition Traj : Type := list (Z * list (Z * Z)).

(** A training classifier [classifier(wvd, traj, fid, wid)]: a state index,
    or [-1] for "no ground truth"; [None] when the call raises. *)
Definition Classifier (Seg : Type) : Type := WVD Seg -> Traj -> Z -> Z -> option Z.

(** One row of the feature table [data]: column 0 is the class id, columns
    1 and 2 the frame and segment ids, columns 3.. the feature vector. *)
Record Row : Type := mkRow {
  row_class : Z;
  row_fid : Z;
  row_wid : Z;
  row_fv : list Q
}.

(** ** class EmmissionDistributions *)

Record EmmissionDistributions (Seg : Type) : Type := mkED {
  _features : list (Seg -> Q);
  _feature_bin_deltas : list Q;
  _feature_bin_mins : list Q;
  _states : list string;
  _distributions : gmap string (list (list R));
  _classifier : Classifier Seg
}.
Arguments mkED {Seg}.
Arguments _features {Seg}.
Arguments _feature_bin_deltas {Seg}.
Arguments _feature_bin_mins {Seg}.
Arguments _states {Seg}.
Arguments _distributions {Seg}.
Arguments _classifier {Seg}.

(** The result of [floor((val - bmin) / db)]: an integer-valued float, or
    an infinity or NaN when the bin width [db] is zero. *)
Inductive BinIndex : Type :=
| Bin (j : Z)
| NonFinite.

Section Emission.
Context {Seg : Type}.
Implicit Types (self : EmmissionDistributions Seg) (wvd : WVD Seg) (traj : Traj).

Definition with_bins self (deltas mins : list Q) : EmmissionDistributions Seg :=
  mkED (_features self) deltas mins (_states self) (_distributions self)
       (_classifier self).

Definition with_distributions self (d : gmap string (list (list R)))
  : EmmissionDistributions Seg :=
  mkED (_features self) (_feature_bin_deltas self) (_feature_bin_mins self)
       (_states self) d (_classifier self).

Definition with_classifier self (c : Classifier Seg) : EmmissionDistributions Seg :=
  mkED (_features self) (_feature_bin_deltas self) (_feature_bin_mins self)
       (_states self) (_distributions self) c.

(** [feature(seg)] *)
Definition feature self (seg : Seg) : list Q :=
  map (fun f => f seg) (_features self).

(** [_count_whiskers(wvd)] *)
Definition _count_whiskers wvd : nat :=
  fold_left (fun nrows '(fid, v) => nrows + length v) wvd 0.

(** The generator [iter()] of [_all_features]. *)
Definition iter_whiskers wvd : list (Z * Z * Seg) :=
  flat_map (fun '(fid, v) => map (fun '(wid, w) => (fid, wid, w)) v) wvd.

(** [_all_features(wvd, traj)] *)
Definition _all_features self wvd traj : option (list Row) :=
  mapM (fun '(fid, wid, w) =>
          c ← _classifier self wvd traj fid wid;
          Some (mkRow c fid wid (feature self w)))
       (iter_whiskers wvd).

(** The [else] branch of [estimate]: a supplied table is re-classified. *)
Definition reclassify self wvd traj (data : list Row) : option (list Row) :=
  mapM (fun row =>
          c ← _classifier self wvd traj (row_fid row) (row_wid row);
          Some (mkRow c (row_fid row) (row_wid row) (row_fv row)))
       data.

(** The table [estimate] trains on. *)
Definition training_table self wvd traj (data : option (list Row))
  : option (list Row) :=
  match data with
  | None => _all_features self wvd traj
  | Some d => reclassify self wvd traj d
  end.

(** [data[:, 3 + i]]; [IndexError] when the table has no such column. *)
Definition column (data : list Row) (i : nat) : option (list Q) :=
  mapM (fun row => row_fv row !! i) data.

(** [data[:, 0] == k] *)
Definition class_mask (data : list Row) (k : nat) : list bool :=
  map (fun row => bool_decide (row_class row = Z.of_nat k)) data.

(** Lines 110-113: histogram, add one to every bin, normalise, [log2]. *)
Definition smoothed_counts (sample b : list Q) : list Q :=
  map (fun c : nat => (inject_Z (Z.of_nat c) + 1)%Q) (Numpy.histogram sample b).

Definition bin_probabilities (sample b : list Q) : list Q :=
  let counts := smoothed_counts sample b in
  map (fun c => (c / Numpy.Qsum counts)%Q) counts.

Definition log_histogram (sample b : list Q) : list R :=
  map (fun p => Numpy.log2 (Q2R p)) (bin_probabilities sample b).

(** The inner loop of [estimate], lines 108-113. *)
Fixpoint append_histograms (data : list Row) (v b : list Q)
    (d : gmap string (list (list R))) (states : list (nat * string))
  : option (gmap string (list (list R))) :=
  match states with
  | [] => Some d
  | (k, state) :: rest =>
      hs ← d !! state;
      append_histograms data v b
        (<[state := hs ++ [log_histogram (Numpy.compress (class_mask data k) v) b]]> d)
        rest
  end.

(** The outer loop of [estimate], lines 97-113, over the feature indices. *)
Fixpoint estimate_features (data : list Row) self (indices : list nat)
  : option (EmmissionDistributions Seg) :=
  match indices with
  | [] => Some self
  | i :: rest =>
      v ← column data i;
      mn ← Numpy.amin v;
      mx ← Numpy.amax v;
      let b := Numpy.linspace mn mx 64 in
      let self1 :=
        with_bins self
          (<[i := (nth 1 b 0 - nth 0 b 0)%Q]> (_feature_bin_deltas self))
          (<[i := nth 0 b 0%Q]> (_feature_bin_mins self)) in
      d ← append_histograms data v b (_distributions self1) (enumerate (_states self1));
      estimate_features data (with_distributions self1 d) rest
  end.

(** [estimate(wvd, traj, data = None)] *)
Definition estimate self wvd traj (data : option (list Row))
  : option (EmmissionDistributions Seg) :=
  data' ← training_table self wvd traj data;
  estimate_features data' self (seq 0 (length (_features self))).

(** The object [__init__] builds before it looks at [wvd] and [traj]. *)
Definition blank (features : list (Seg -> Q)) (states : list string)
    (classifier : Classifier Seg) : EmmissionDistributions Seg :=
  mkED features
       (replicate (length features) 0%Q)
       (replicate (length features) 0%Q)
       states
       (list_to_map (map (fun s => (s, [])) states))
       classifier.

(** [__init__(states, classifier, wvd = None, traj = None, data = None)];
    the feature functions, which the program takes from the module
    [features], are a parameter. *)
Definition init (features : list (Seg -> Q)) (states : list string)
    (classifier : Classifier Seg) (wvd : option (WVD Seg)) (traj : option Traj)
    (data : option (list Row)) : option (EmmissionDistributions Seg) :=
  match wvd, traj with
  | Some w, Some t => estimate (blank features states classifier) w t data
  | _, _ => Some (blank features states classifier)
  end.

(** [_discritize(fv)] *)
Definition _discritize self (fv : list Q) : list BinIndex :=
  map (fun '(val, (db, bmin)) =>
         if Qeq_bool db 0 then NonFinite
         else Bin (Qfloor ((val - bmin) / db)))
      (zip fv (zip (_feature_bin_deltas self) (_feature_bin_mins self))).

(** [evaluate(seg, state)]; the float index is used as the integer it
    holds, and a non-finite index raises. *)
Definition evaluate self (seg : Seg) (state : string) : option R :=
  let data := feature self seg in
  let idx := _discritize self data in
  logp ← mapM (fun '(i, j) =>
                 hs ← _distributions self !! state;
                 h ← hs !! i;
                 match j with
                 | Bin j => getitem h j
                 | NonFinite => None
                 end)
              (enumerate idx);
  Some (fold_left Rplus logp 0%R).

End Emission.

(** ** class EDTwoState *)

Module EDTwoState.
Section TwoState.
Context {Seg : Type}.

(** [_itertraj(traj)]: the pairs [(fid, wid)] of every trajectory. *)
Definition _itertraj (traj : Traj) : list (Z * Z) :=
  flat_map (fun '(tid, v) => v) traj.

(** The set [frames] of [_make_classifer]: every frame id of [traj]. *)
Definition frames (traj : Traj) : gset Z :=
  fold_left (fun (acc : gset Z) '(tid, v) => acc ∪ list_to_set (map fst v)) traj ∅.

(** The set [labelled] of [_make_classifer]. *)
Definition labelled (traj : Traj) : gset (Z * Z) :=
  list_to_set (_itertraj traj).

(** [_make_classifer(traj)].  The closure is declared
    [classifier(wvd, traj, wid, fid)]: its third parameter is called
    [wid] and its fourth [fid], and every caller passes the frame id
    third and the segment id fourth. *)
Definition _make_classifer (traj : Traj) : Classifier Seg :=
  fun _wvd _traj wid fid =>
    Some (if decide (fid ∈ frames traj)
          then Z.b2z (bool_decide ((wid, fid) ∈ labelled traj))
          else (-1)%Z).

(** [__init__(wvd, traj, data = None, do_estimate = True)].  The base
    [__init__] calls [self.estimate], which is the [estimate] below; it
    installs the same classifier again before the base [estimate] runs. *)
Definition init (features : list (Seg -> Q)) (wvd : WVD Seg) (traj : Traj)
    (data : option (list Row)) (do_estimate : bool)
  : option (EmmissionDistributions Seg) :=
  let classifier := _make_classifer traj in
  if do_estimate
  then init features ["junk"; "whiskers"]%string classifier (Some wvd) (Some traj) data
  else init features ["junk"; "whiskers"]%string classifier None None None.

(** [estimate(wvd, traj, data = None)] *)
Definition estimate (self : EmmissionDistributions Seg) (wvd : WVD Seg)
    (traj : Traj) (data : option (list Row))
  : option (EmmissionDistributions Seg) :=
  estimate (with_classifier self (_make_classifer traj)) wvd traj data.

End TwoState.
End EDTwoState.

(** ["junk%d" % t] and ["whisker%d" % t] *)
Definition junk_name (t : nat) : string := "junk" +:+ pretty t.
Definition whisker_name (t : nat) : string := "whisker" +:+ pretty t.

(** [iterstates(n)] *)
Definition iterstates (n : nat) : list string :=
  ("start" :: flat_map (fun i : nat => [junk_name i; whisker_name i]) (seq 0 n))
  ++ ["end"%string].

(** ** class EDMultiState *)

Module EDMultiState.
Section MultiState.
Context {Seg : Type}.
(** [w.y[0]], the first y-coordinate of a segment's trace. *)
Variable y0 : Seg -> Q.

(** [wcmp(a, b)] *)
Definition wcmp (a b : Seg) : comparison := Qcompare (y0 a) (y0 b).

(** [sorted(items, cmp = c)]: Python's sort is stable, and a stable sort
    has one result; it is computed here by insertion. *)
Fixpoint insert_by {A} (c : A -> A -> comparison) (x : A) (l : list A) : list A :=
  match l with
  | [] => [x]
  | y :: l' =>
      match c x y with
      | Gt => y :: insert_by c x l'
      | _ => x :: l
      end
  end.

Definition sorted {A} (c : A -> A -> comparison) (l : list A) : list A :=
  foldr (insert_by c) [] l.

(** What [_make_classifer] builds. *)
Record Built : Type := mkBuilt {
  _nsteps : nat;
  classmap : gmap (Z * Z) string;
  states : gset string
}.

(** The loop over one frame's sorted segments, lines 198-205. *)
Fixpoint label_frame (labelled : gset (Z * Z)) (fid : Z) (items : list (Z * Seg))
    (t : nat) (cm : gmap (Z * Z) string) (st : gset string)
  : nat * gmap (Z * Z) string * gset string :=
  match items with
  | [] => (t, cm, st)
  | (wid, w) :: rest =>
      if decide ((fid, wid) ∈ labelled)
      then let name := whisker_name t in
           label_frame labelled fid rest (S t) (<[(fid, wid) := name]> cm) ({[name]} ∪ st)
      else let name := junk_name t in
           label_frame labelled fid rest t (<[(fid, wid) := name]> cm) ({[name]} ∪ st)
  end.

(** The loop over the frames, lines 196-206. *)
Fixpoint label_frames (labelled : gset (Z * Z)) (wvd : WVD Seg) (b : Built) : Built :=
  match wvd with
  | [] => b
  | (fid, wv) :: rest =>
      let '(t, cm, st) :=
        label_frame labelled fid (sorted (fun a b => wcmp a.2 b.2) wv) 0
                    (classmap b) (states b) in
      label_frames labelled rest (mkBuilt (Nat.max (_nsteps b) t) cm st)
  end.

(** The part of [_make_classifer(wvd, traj)] that sets [_nsteps] and the
    state names. *)
Definition build (wvd : WVD Seg) (traj : Traj) : Built :=
  label_frames (EDTwoState.labelled traj) wvd (mkBuilt 0 ∅ ∅).

(** [self._states = list(states)] *)
Definition _states (b : Built) : list string := elements (states b).

(** [statemap] *)
Definition statemap (b : Built) : gmap string nat :=
  list_to_map (map (fun '(i, n) => (n, i)) (enumerate (_states b))).

(** The classifier [_make_classifer(wvd, traj)] returns. *)
Definition _make_classifer (wvd : WVD Seg) (traj : Traj) : Classifier Seg :=
  let b := build wvd traj in
  fun _wvd _traj fid wid =>
    if decide (fid ∈ EDTwoState.frames traj)
    then name ← classmap b !! (fid, wid);
         i ← statemap b !! name;
         Some (Z.of_nat i)
    else Some (-1)%Z.

(** [__init__(wvd, traj, data = None, do_estimate = True)] *)
Definition init (features : list (Seg -> Q)) (wvd : WVD Seg) (traj : Traj)
    (data : option (list Row)) (do_estimate : bool)
  : option (EmmissionDistributions Seg) :=
  let classifier := _make_classifer wvd traj in
  let names := _states (build wvd traj) in
  if do_estimate
  then init features names classifier (Some wvd) (Some traj) data
  else init features names classifier None None None.

(** [estimate(wvd, traj, data = None)]: [_make_classifer] replaces the
    classifier and the state list; [_distributions] keeps its keys. *)
Definition estimate (self : EmmissionDistributions Seg) (wvd : WVD Seg)
    (traj : Traj) (data : option (list Row))
  : option (EmmissionDistributions Seg) :=
  estimate
    (mkED (_features self) (_feature_bin_deltas self) (_feature_bin_mins self)
          (_states (build wvd traj)) (_distributions self)
          (_make_classifer wvd traj))
    wvd traj data.

End MultiState.
End EDMultiState.

(** ** class LeftRightModel *)

(** A float64 that may be NaN or minus infinity. *)
Inductive float : Type :=
| NaN
| NegInf
| Finite (r : R).

Module LeftRightModel.

(** [T[isrc, idst] = x] on a list of rows. *)
Definition setitem2 (T : list (list R)) (i j : nat) (x : R) : list (list R) :=
  alter (fun row => <[j := x]> row) i T.

Section Model.
Context {Seg : Type}.

Record LeftRightModel : Type := mkModel {
  states : option (list string);
  _statemodel : option (EmmissionDistributions Seg);
  _startprob : gmap string R;
  _transitions : gmap string (gmap string R)
}.

(** [__init__()] *)
Definition init : LeftRightModel := mkModel None None ∅ ∅.

(** The inner loop of [transition_matrix], with its [try]/[except
    KeyError: pass]. *)
Definition fill_row (tr : gmap string (gmap string R)) (isrc : nat) (src : string)
    (T : list (list R)) (dsts : list (nat * string)) : list (list R) :=
  fold_left
    (fun T '(idst, dst) =>
       match tr !! src with
       | Some row =>
           match row !! dst with
           | Some logp => setitem2 T isrc idst logp
           | None => T
           end
       | None => T
       end)
    dsts T.

(** [transition_matrix()]; [len(self.states)] raises while [states] is
    [None]. *)
Definition transition_matrix (self : LeftRightModel) : option (list (list R)) :=
  sts ← states self;
  let n := length sts in
  Some (fold_left
          (fun T '(isrc, src) => fill_row (_transitions self) isrc src T (enumerate sts))
          (enumerate sts)
          (replicate n (replicate n 0%R))).

(** [train_emmissions(wvd, traj, data = None)] *)
Definition train_emmissions (self : LeftRightModel) (wvd : WVD Seg) (traj : Traj)
    (data : option (list Row)) : option LeftRightModel :=
  m ← _statemodel self;
  m' ← estimate m wvd traj data;
  Some (mkModel (states self) (Some m') (_startprob self) (_transitions self)).

(** *** [train_time_independent], lines 259-284

    The statements [S[prev]++;], [T[prev,next] ++;] and [E[prev]++;] are
    not Python (the file does not compile as it stands); they are read
    here as the increments [+= 1] they abbreviate.  The rest of the
    function (lines 286-307) refers to an unbound name and is not
    modelled. *)

(** [v[j] += 1] *)
Definition incr (v : list Z) (j : Z) : option (list Z) :=
  i ← py_index (length v) j;
  Some (alter Z.succ i v).

(** [T[j, k] += 1] *)
Definition incr2 (T : list (list Z)) (j k : Z) : option (list (list Z)) :=
  i ← py_index (length T) j;
  row ← T !! i;
  row' ← incr row k;
  Some (<[i := row']> T).

(** The loop [for wid in wids[1:]], lines 271-274. *)
Fixpoint count_transitions (classify : Z -> Z -> option Z) (fid : Z) (wids : list Z)
    (T : list (list Z)) (prev : Z) : option (list (list Z) * Z) :=
  match wids with
  | [] => Some (T, prev)
  | wid :: rest =>
      next ← classify fid wid;
      T' ← incr2 T prev next;
      count_transitions classify fid rest T' next
  end.

(** The loop over the frames, lines 265-275.  [wids] is [wvd.keys()]. *)
Fixpoint count_frames (classify : Z -> Z -> option Z) (wids : list Z)
    (frames : list Z) (acc : list Z * list (list Z) * list Z)
  : option (list Z * list (list Z) * list Z) :=
  match frames with
  | [] => Some acc
  | fid :: rest =>
      let '(cS, cT, cE) := acc in
      wid0 ← head wids;
      prev ← classify fid wid0;
      if decide (prev = (-1)%Z) then count_frames classify wids rest acc
      else
        cS' ← incr cS prev;
        '(cT', last) ← count_transitions classify fid (tail wids) cT prev;
        cE' ← incr cE last;
        count_frames classify wids rest (cS', cT', cE')
  end.

(** [v /= v.sum()] followed by [log2]: [0/0] is NaN, [log2(0)] is minus
    infinity. *)
Definition normalise_log2 (v : list Z) : list float :=
  let total := fold_right Z.add 0%Z v in
  map (fun c : Z =>
         if decide (total = 0%Z) then NaN
         else if decide (c = 0%Z) then NegInf
         else Finite (Numpy.log2 (Q2R (inject_Z c / inject_Z total))))
      v.

(** [S, T, E] as saved in [_simple_model]. *)
Definition train_time_independent (wvd : WVD Seg) (traj : Traj)
  : option (list float * list (list float) * list float) :=
  let classify := EDTwoState._make_classifer traj wvd traj in
  '(cS, cT, cE) ← count_frames classify (map fst wvd) (map fst wvd)
                    ([0; 0]%Z, [[0; 0]; [0; 0]]%Z, [0; 0]%Z);
  Some (normalise_log2 cS, map normalise_log2 cT, normalise_log2 cE).

(** [2 ** x] on such a float. *)
Definition exp2f (x : float) : option R :=
  match x with
  | NaN => None
  | NegInf => Some 0%R
  | Finite r => Some (Numpy.exp2 r)
  end.

(** A log2 vector is stochastic when [2 ** x] is defined on every entry
    and the results sum to one. *)
Definition stochastic (v : list float) : Prop :=
  exists ps, mapM exp2f v = Some ps /\ Numpy.Rsum ps = 1%R.

End Model.
End LeftRightModel.

(** ** Small training sets used as concrete inputs *)

Module Ex.

(** One registered feature: a segment is its own feature value. *)
Definition features : list (Q -> Q) := [fun seg => seg].

Definition states : list string := ["junk"; "whiskers"]%string.

(** A classifier that puts every segment in class 0. *)
Definition all_junk : Classifier Q := fun _ _ _ _ => Some 0%Z.

(** A classifier for which frame 9 has no ground truth. *)
Definition frame9_unlabelled : Classifier Q :=
  fun _ _ fid _ => Some (if decide (fid = 9%Z) then (-1)%Z else 0%Z).

(** One frame, two segments with feature values 0 and 63. *)
Definition wvd_0_63 : WVD Q := [(0%Z, [(0%Z, 0%Q); (1%Z, 63%Q)])].

(** One frame, three segments with feature values 0, 0 and 63. *)
Definition wvd_0_0_63 : WVD Q := [(0%Z, [(0%Z, 0%Q); (1%Z, 0%Q); (2%Z, 63%Q)])].

(** Frame 0 holds the values 0 and 10, frame 9 the value 63. *)
Definition wvd_frame9 : WVD Q :=
  [(0%Z, [(0%Z, 0%Q); (1%Z, 10%Q)]); (9%Z, [(0%Z, 63%Q)])].

(** One trajectory: segment 7 in frame 5. *)
Definition traj_5_7 : Traj := [(0, [(5, 7)])]%Z.

(** One frame with one segment, which is the whole of one trajectory. *)
Definition wvd_single : WVD Q := [(0%Z, [(0%Z, 0%Q)])].
Definition traj_single : Traj := [(0, [(0, 0)])]%Z.

(** One frame with three segments ordered by their key; the middle one is
    the whole of one trajectory. *)
Definition wvd_three : WVD Q := [(0%Z, [(0%Z, 1%Q); (1%Z, 2%Q); (2%Z, 3%Q)])].
Definition traj_middle : Traj := [(0, [(0, 1)])]%Z.

(** A model with two states and one stored transition. *)
Definition model : @LeftRightModel.LeftRightModel Q :=
  LeftRightModel.mkModel (Some ["junk0"; "whisker0"]%string) None ∅
    {[ "junk0"%string := {[ "whisker0"%string := (-1)%R ]} ]}.

(** One frame, two segments, both with feature value 5. *)
Definition wvd_5_5 : WVD Q := [(0%Z, [(0%Z, 5%Q); (1%Z, 5%Q)])].

(** An estimator object whose state "ghost" has no entry in
    [_distributions]. *)
Definition ghost : EmmissionDistributions Q :=
  mkED features [0%Q] [0%Q] ["ghost"%string] ∅ all_junk.

End Ex.

(** * Properties *)

(** ** Predicates used in the statements *)

(** Every histogram stored in [d] satisfies [P]. *)
Definition all_hists (P : list R -> Prop) (d : gmap string (list (list R))) : Prop :=
  forall st hs h, d !! st = Some hs -> h ∈ hs -> P h.

(** A stored histogram [h] is the [log2] of a probability vector: every
    probability is positive, they sum to one, and so do the [2 ** x] of the
    stored entries. *)
Definition normalised (h : list R) : Prop :=
  exists probs : list Q,
    h = map (fun p => Numpy.log2 (Q2R p)) probs /\
    Forall (fun p => (0 < p)%Q) probs /\
    (Numpy.Qsum probs == 1)%Q /\
    Numpy.Rsum (map Numpy.exp2 h) = 1%R.

(** What lines 99-113 of [estimate] compute for feature [i] and the state
    of index [k]: the bin edges over the whole column, and the smoothed,
    normalised log2 histogram of the rows of class [k]. *)
Definition feature_histogram (data : list Row) (i k : nat) : option (list R) :=
  v ← column data i;
  mn ← Numpy.amin v;
  mx ← Numpy.amax v;
  Some (log_histogram (Numpy.compress (class_mask data k) v)
                      (Numpy.linspace mn mx 64)).

(** The edge [k] of the partition [linspace(mn, mx, 64)]. *)
Definition edge (mn mx : Q) (k : nat) : Q :=
  (mn + inject_Z (Z.of_nat k) * ((mx - mn) / 63))%Q.

(** What a call of [estimate] on the table [tbl] stores for feature [i]:
    bin minimum [bmin] and bin width [dlt] over the extrema [mn], [mx] of the
    whole column [v], and, for every state, a histogram of 63 bins over the
    64 edges [edge mn mx 0 .. edge mn mx 63]. *)
Definition uniform_partition {Seg} (tbl : list Row)
    (self e : EmmissionDistributions Seg) (i : nat) : Prop :=
  exists v mn mx dlt bmin,
    column tbl i = Some v /\ Numpy.amin v = Some mn /\ Numpy.amax v = Some mx /\
    _feature_bin_deltas e !! i = Some dlt /\ (dlt == (mx - mn) / 63)%Q /\
    _feature_bin_mins e !! i = Some bmin /\ (bmin == mn)%Q /\
    (forall j : nat, (edge mn mx j == bmin + inject_Z (Z.of_nat j) * dlt)%Q) /\
    (edge mn mx 63 == mx)%Q /\
    (forall k st old,
       _states self !! k = Some st ->
       _distributions self !! st = Some old ->
       exists new h,
         _distributions e !! st = Some (old ++ new) /\
         new !! i = Some h /\ length h = 63%nat /\
         h = log_histogram (Numpy.compress (class_mask tbl k) v)
                           (Numpy.linspace mn mx 64)) /\
    (forall (sample : list Q) (j : nat), (j < 63)%nat ->
       Numpy.histogram sample (Numpy.linspace mn mx 64) !! j
       = Some (Numpy.count_if
                 (Numpy.in_bin (edge mn mx j) (edge mn mx (S j)) (bool_decide (j = 62%nat)))
                 sample)).

(** The extrema behind the stored bin range of feature [i] are those of
    every row of the table [tbl], whatever its class; the histogram of the
    state of index [k] counts the rows of class [k] only. *)
Definition extrema_over_table {Seg} (tbl : list Row)
    (self e : EmmissionDistributions Seg) (i : nat) : Prop :=
  exists v mn mx dlt bmin,
    column tbl i = Some v /\ mn ∈ v /\ mx ∈ v /\
    (forall row, row ∈ tbl ->
       exists x, row_fv row !! i = Some x /\ (mn <= x)%Q /\ (x <= mx)%Q) /\
    _feature_bin_mins e !! i = Some bmin /\ (bmin == mn)%Q /\
    _feature_bin_deltas e !! i = Some dlt /\ (dlt == (mx - mn) / 63)%Q /\
    (forall k st old,
       _states self !! k = Some st ->
       _distributions self !! st = Some old ->
       exists new sample,
         _distributions e !! st = Some (old ++ new) /\
         column (List.filter (fun row => bool_decide (row_class row = Z.of_nat k)) tbl) i
         = Some sample /\
         new !! i = Some (log_histogram sample (Numpy.linspace mn mx 64))).

(** The state names found so far fit the step count [n]: every
    ["whisker<k>"] with [k < n] is there, and every name is a ["whisker<k>"]
    with [k < n] or a ["junk<k>"] with [k <= n]. *)
Definition names_fit (n : nat) (st : gset string) : Prop :=
  (forall k, (k < n)%nat -> whisker_name k ∈ st) /\
  (forall name, name ∈ st ->
     (exists k, (k < n)%nat /\ name = whisker_name k) \/
     (exists k, (k <= n)%nat /\ name = junk_name k)).

(** The number of segments of the frame [fid] that belong to a
    trajectory. *)
Definition trajectory_members {Seg : Type} (labelled : gset (Z * Z)) (fid : Z)
    (wv : list (Z * Seg)) : nat :=
  length (List.filter (fun p => bool_decide ((fid, p.1) ∈ labelled)) wv).

(** [v.sum()] of a vector of counts. *)
Definition total (v : list Z) : Z := fold_right Z.add 0%Z v.

(** The values the binary classifier returns. *)
Definition class_value (c : Z) : Prop := c = (-1)%Z \/ c = 0%Z \/ c = 1%Z.

(** The entry [T[i, j]] of a matrix given as a list of rows. *)
Definition entry (T : list (list R)) (i j : nat) : option R :=
  row ← T !! i; row !! j.

(** [T] is an [n] by [n] matrix. *)
Definition square (n : nat) (T : list (list R)) : Prop :=
  length T = n /\ Forall (fun row => length row = n) T.

(** The stored log2 probability of the transition from [src] to [dst]. *)
Definition stored_transition (tr : gmap string (gmap string R)) (src dst : string)
  : option R :=
  row ← tr !! src; row !! dst.

(** The bin index [floor((val - bmin) / db)] of [_discritize]. *)
Definition bin_index (val db bmin : Q) : Z := Qfloor ((val - bmin) / db).

(** Per registered feature: the segment's value, the stored bin width and
    bin minimum, and the histogram stored for that feature in [hs]. *)
Definition bin_args {Seg} (self : EmmissionDistributions Seg) (seg : Seg)
    (hs : list (list R)) : list (Q * (Q * (Q * list R))) :=
  zip (feature self seg)
      (zip (_feature_bin_deltas self) (zip (_feature_bin_mins self) hs)).

(** Every bin index of [seg] is a position of its histogram. *)
Definition in_range {Seg} (self : EmmissionDistributions Seg) (seg : Seg)
    (hs : list (list R)) : Prop :=
  Forall (fun '(val, (db, (bmin, h))) =>
            ~ (db == 0)%Q /\
            (0 <= bin_index val db bmin < Z.of_nat (length h))%Z)
         (bin_args self seg hs).

(** The stored log2 probability of each feature's bin. *)
Definition looked_up {Seg} (self : EmmissionDistributions Seg) (seg : Seg)
    (hs : list (list R)) : list R :=
  map (fun '(val, (db, (bmin, h))) => nth (Z.to_nat (bin_index val db bmin)) h 0%R)
      (bin_args self seg hs).

(** The position a bin index in [[-len, len)] reads in a histogram of
    [len] bins: a negative index counts from the last bin. *)
Definition wrapped_position (len : nat) (j : Z) : nat :=
  if (0 <=? j)%Z then Z.to_nat j else Z.to_nat (Z.of_nat len + j).

(** Every bin index of [seg] lies in [[-len, len)] for its histogram. *)
Definition in_wrapped_range {Seg} (self : EmmissionDistributions Seg) (seg : Seg)
    (hs : list (list R)) : Prop :=
  Forall (fun '(val, (db, (bmin, h))) =>
            ~ (db == 0)%Q /\
            (- Z.of_nat (length h) <= bin_index val db bmin < Z.of_nat (length h))%Z)
         (bin_args self seg hs).

(** The stored entry each feature's bin index reads, negative indices
    counted from the last bin. *)
Definition looked_up_wrapped {Seg} (self : EmmissionDistributions Seg) (seg : Seg)
    (hs : list (list R)) : list R :=
  map (fun '(val, (db, (bmin, h))) =>
         nth (wrapped_position (length h) (bin_index val db bmin)) h 0%R)
      (bin_args self seg hs).

(** ** Logarithms *)

Lemma ln2_pos : (0 < ln 2)%R.
Proof. rewrite <- ln_1. apply ln_increasing; lra. Qed.

Lemma exp2_log2 (x : R) : (0 < x)%R -> Numpy.exp2 (Numpy.log2 x) = x.
Proof.
  intros Hx. unfold Numpy.exp2, Numpy.log2, Rpower.
  replace (ln x / ln 2 * ln 2)%R with (ln x).
  - now apply exp_ln.
  - field. pose proof ln2_pos. lra.
Qed.

Lemma log2_inj (x y : R) :
  (0 < x)%R -> (0 < y)%R -> Numpy.log2 x = Numpy.log2 y -> x = y.
Proof.
  intros Hx Hy Heq.
  rewrite <- (exp2_log2 x Hx), <- (exp2_log2 y Hy). now rewrite Heq.
Qed.

(** ** Sums *)

Lemma Qsum_map_div (l : list Q) (t : Q) :
  (Numpy.Qsum (map (fun c => c / t) l) == Numpy.Qsum l / t)%Q.
Proof.
  induction l as [|c l IH]; simpl.
  - unfold Qdiv. ring.
  - rewrite IH. unfold Qdiv. ring.
Qed.

Lemma Qsum_pos (l : list Q) :
  Forall (fun c => (0 < c)%Q) l -> l <> [] -> (0 < Numpy.Qsum l)%Q.
Proof.
  induction 1 as [|c l Hc Hl IH]; [congruence|]. intros _. simpl.
  destruct l as [|c' l'].
  - simpl. rewrite Qplus_0_r. exact Hc.
  - assert (0 < Numpy.Qsum (c' :: l'))%Q by (apply IH; congruence).
    apply Qlt_trans with (0 + Numpy.Qsum (c' :: l'))%Q.
    + now rewrite Qplus_0_l.
    + apply Qplus_lt_le_compat; [exact Hc | apply Qle_refl].
Qed.

Lemma Rsum_Q2R (l : list Q) :
  Numpy.Rsum (map Q2R l) = Q2R (Numpy.Qsum l).
Proof.
  induction l as [|c l IH]; simpl.
  - unfold Q2R. simpl. lra.
  - rewrite IH. now rewrite Q2R_plus.
Qed.

Lemma Rsum_exp2_log2 (probs : list Q) :
  Forall (fun p => (0 < p)%Q) probs ->
  Numpy.Rsum (map Numpy.exp2 (map (fun p => Numpy.log2 (Q2R p)) probs))
  = Q2R (Numpy.Qsum probs).
Proof.
  intros Hpos. rewrite <- Rsum_Q2R. f_equal.
  induction Hpos as [|p l Hp Hl IH]; [reflexivity|]. simpl. rewrite IH.
  f_equal. apply exp2_log2.
  replace 0%R with (Q2R 0) by (unfold Q2R; simpl; lra).
  now apply Qlt_Rlt.
Qed.

(** ** [linspace] and [histogram] *)

Lemma length_linspace (a b : Q) (n : nat) : length (Numpy.linspace a b n) = n.
Proof. unfold Numpy.linspace. now rewrite length_map, length_seq. Qed.

Lemma lookup_linspace_64 (mn mx : Q) (k : nat) :
  (k < 64)%nat -> Numpy.linspace mn mx 64 !! k = Some (edge mn mx k).
Proof.
  intros Hk. unfold Numpy.linspace.
  rewrite list_lookup_fmap, lookup_seq_lt by exact Hk. reflexivity.
Qed.

Lemma length_histogram (a edges : list Q) :
  length (Numpy.histogram a edges) = (length edges - 1)%nat.
Proof.
  induction edges as [|lo [|hi rest] IH]; simpl in *; try reflexivity.
  rewrite IH. lia.
Qed.

Lemma lookup_histogram (a edges : list Q) (k : nat) (lo hi : Q) :
  edges !! k = Some lo -> edges !! S k = Some hi ->
  Numpy.histogram a edges !! k
  = Some (Numpy.count_if
            (Numpy.in_bin lo hi (bool_decide (S (S k) = length edges))) a).
Proof.
  revert k. induction edges as [|e0 [|e1 rest] IH]; intros k Hlo Hhi.
  - discriminate.
  - destruct k; discriminate.
  - destruct k as [|k].
    + simpl in Hlo, Hhi. injection Hlo as <-. injection Hhi as <-.
      simpl. do 3 f_equal. now destruct rest.
    + change (Numpy.histogram a (e0 :: e1 :: rest) !! S k)
        with (Numpy.histogram a (e1 :: rest) !! k).
      rewrite (IH k Hlo Hhi). do 3 f_equal.
      apply bool_decide_ext. simpl. lia.
Qed.

Lemma in_bin_spec (lo hi : Q) (last : bool) (x : Q) :
  Numpy.in_bin lo hi last x = true <->
  (lo <= x)%Q /\ (if last then (x <= hi)%Q else (x < hi)%Q).
Proof.
  unfold Numpy.in_bin. rewrite andb_true_iff, Qle_bool_iff.
  destruct last.
  - now rewrite Qle_bool_iff.
  - rewrite negb_true_iff. split; intros [H1 H2]; split; try exact H1.
    + apply Qnot_le_lt. intros H. apply Qle_bool_iff in H. congruence.
    + destruct (Qle_bool hi x) eqn:E; [|reflexivity].
      apply Qle_bool_iff in E. exfalso. now apply (Qlt_not_le x hi).
Qed.

(** ** Smoothed, normalised histograms *)

Lemma length_log_histogram (sample b : list Q) :
  length (log_histogram sample b) = (length b - 1)%nat.
Proof.
  unfold log_histogram, bin_probabilities, smoothed_counts.
  now rewrite !length_map, length_histogram.
Qed.

Lemma smoothed_counts_pos (sample b : list Q) :
  Forall (fun c => (0 < c)%Q) (smoothed_counts sample b).
Proof.
  unfold smoothed_counts. apply Forall_fmap, Forall_true. intros c. simpl.
  apply Qlt_le_trans with 1%Q; [reflexivity|].
  rewrite <- (Qplus_0_l 1) at 1. apply Qplus_le_compat; [|apply Qle_refl].
  change 0%Q with (inject_Z 0). rewrite <- Zle_Qle. lia.
Qed.

Lemma bin_probabilities_spec (sample b : list Q) :
  (2 <= length b)%nat ->
  Forall (fun p => (0 < p)%Q) (bin_probabilities sample b) /\
  (Numpy.Qsum (bin_probabilities sample b) == 1)%Q.
Proof.
  intros Hb. unfold bin_probabilities.
  pose proof (smoothed_counts_pos sample b) as Hpos.
  assert (Hne : smoothed_counts sample b <> []).
  { intros E. apply (f_equal length) in E. unfold smoothed_counts in E.
    rewrite length_map, length_histogram in E. simpl in E. lia. }
  pose proof (Qsum_pos _ Hpos Hne) as Htot.
  set (counts := smoothed_counts sample b) in *.
  set (total := Numpy.Qsum counts) in *.
  split.
  - apply Forall_fmap. eapply Forall_impl; [exact Hpos|]. intros c Hc. simpl.
    apply Qlt_shift_div_l; [exact Htot|]. now rewrite Qmult_0_l.
  - rewrite Qsum_map_div. fold total. unfold Qdiv. apply Qmult_inv_r.
    intros E. rewrite E in Htot. now apply (Qlt_irrefl 0).
Qed.

Lemma log_histogram_normalised (sample b : list Q) :
  (2 <= length b)%nat -> normalised (log_histogram sample b).
Proof.
  intros Hb. destruct (bin_probabilities_spec sample b Hb) as [Hpos Hsum].
  exists (bin_probabilities sample b). repeat split; try assumption.
  unfold log_histogram. rewrite Rsum_exp2_log2 by exact Hpos.
  rewrite (Qeq_eqR _ _ Hsum). unfold Q2R. simpl. lra.
Qed.

(** ** Invariants of the two loops of [estimate] *)

Lemma snd_enumerate {A} (l : list A) : (enumerate l).*2 = l.
Proof.
  unfold enumerate. apply list_eq. intros i.
  rewrite list_lookup_fmap, list_lookup_imap. now destruct (l !! i).
Qed.

Lemma elem_of_enumerate {A} (l : list A) (k : nat) (x : A) :
  (k, x) ∈ enumerate l <-> l !! k = Some x.
Proof.
  unfold enumerate. rewrite elem_of_lookup_imap. split.
  - intros (i & y & E & Hl). now injection E as -> ->.
  - intros Hl. now exists k, x.
Qed.

Section EstimateLoops.
Context {Seg : Type}.
Implicit Types (self e : EmmissionDistributions Seg).
Implicit Types (d : gmap string (list (list R))).

Lemma append_histograms_all (P : list R -> Prop) data v b d ks d' :
  (forall sample, P (log_histogram sample b)) ->
  all_hists P d ->
  append_histograms data v b d ks = Some d' ->
  all_hists P d'.
Proof.
  intros HP. revert d. induction ks as [|[k state] ks IH]; intros d Hd Hrun.
  - simpl in Hrun. now injection Hrun as <-.
  - simpl in Hrun. apply bind_Some in Hrun as (hs & Hhs & Hrun).
    refine (IH _ _ Hrun). intros st hs0 h Hl Hin.
    destruct (decide (state = st)) as [->|Hne].
    + rewrite lookup_insert_eq in Hl. injection Hl as <-.
      apply elem_of_app in Hin as [Hin|Hin].
      * exact (Hd _ _ _ Hhs Hin).
      * apply list_elem_of_singleton in Hin as ->. apply HP.
    + rewrite lookup_insert_ne in Hl by exact Hne. exact (Hd _ _ _ Hl Hin).
Qed.

Lemma estimate_features_all (P : list R -> Prop) data self indices e :
  (forall sample mn mx, P (log_histogram sample (Numpy.linspace mn mx 64))) ->
  all_hists P (_distributions self) ->
  estimate_features data self indices = Some e ->
  all_hists P (_distributions e).
Proof.
  intros HP. revert self. induction indices as [|i rest IH]; intros self Hd Hrun.
  - simpl in Hrun. now injection Hrun as <-.
  - simpl in Hrun.
    apply bind_Some in Hrun as (v & Hv & Hrun).
    apply bind_Some in Hrun as (mn & Hmn & Hrun).
    apply bind_Some in Hrun as (mx & Hmx & Hrun).
    apply bind_Some in Hrun as (d & Happ & Hrun).
    refine (IH _ _ Hrun). simpl.
    eapply append_histograms_all; [|exact Hd|exact Happ].
    intros sample. apply HP.
Qed.

Lemma append_histograms_lookup data v b d ks d' :
  NoDup ks.*2 ->
  append_histograms data v b d ks = Some d' ->
  (forall k st, (k, st) ∈ ks ->
     exists hs, d !! st = Some hs /\
       d' !! st
       = Some (hs ++ [log_histogram (Numpy.compress (class_mask data k) v) b])) /\
  (forall st, st ∉ ks.*2 -> d' !! st = d !! st).
Proof.
  revert d. induction ks as [|[k0 s0] ks IH]; intros d Hnd Hrun.
  - simpl in Hrun. injection Hrun as <-. split; [|done].
    intros k st Hin. now apply elem_of_nil in Hin.
  - simpl in Hrun. apply bind_Some in Hrun as (hs0 & Hhs0 & Hrun).
    rewrite fmap_cons in Hnd. apply NoDup_cons in Hnd as [Hs0 Hnd].
    simpl in Hs0.
    destruct (IH _ Hnd Hrun) as [IHin IHout]. split.
    + intros k st Hin. apply elem_of_cons in Hin as [E|Hin].
      * injection E as -> ->. exists hs0. split; [exact Hhs0|].
        rewrite (IHout _ Hs0). apply lookup_insert_eq.
      * destruct (IHin _ _ Hin) as (hs & Hhs & Hd').
        exists hs. split; [|exact Hd'].
        rewrite lookup_insert_ne in Hhs; [exact Hhs|].
        intros ->. apply Hs0. apply list_elem_of_fmap. now exists (k, st).
    + intros st Hst. rewrite fmap_cons in Hst.
      apply not_elem_of_cons in Hst as [Hne Hst].
      rewrite (IHout _ Hst). now apply lookup_insert_ne.
Qed.

Lemma append_histograms_is_Some data v b d ks d' st :
  append_histograms data v b d ks = Some d' -> st ∈ ks.*2 -> is_Some (d !! st).
Proof.
  revert d. induction ks as [|[k0 s0] ks IH]; intros d Hrun Hin.
  - now apply elem_of_nil in Hin.
  - simpl in Hrun. apply bind_Some in Hrun as (hs0 & Hhs0 & Hrun).
    destruct (decide (s0 = st)) as [->|Hne]; [now exists hs0|].
    rewrite fmap_cons in Hin. apply elem_of_cons in Hin as [E|Hin]; [done|].
    pose proof (IH _ Hrun Hin) as HS.
    now rewrite lookup_insert_ne in HS.
Qed.

Lemma append_histograms_grows data v b d ks d' st hs :
  append_histograms data v b d ks = Some d' ->
  d !! st = Some hs ->
  exists hs', d' !! st = Some hs' /\
    (length hs + (if decide (st ∈ ks.*2) then 1 else 0) <= length hs')%nat.
Proof.
  revert d hs. induction ks as [|[k0 s0] ks IH]; intros d hs Hrun Hhs.
  - simpl in Hrun. injection Hrun as <-. exists hs. split; [exact Hhs|].
    rewrite decide_False by apply not_elem_of_nil. lia.
  - simpl in Hrun. apply bind_Some in Hrun as (hs0 & Hhs0 & Hrun).
    destruct (decide (s0 = st)) as [->|Hne].
    + assert (hs0 = hs) as -> by congruence.
      destruct (IH _ _ Hrun (lookup_insert_eq _ _ _)) as (hs' & Hd' & Hlen).
      exists hs'. split; [exact Hd'|]. rewrite length_app in Hlen. simpl in Hlen.
      repeat case_decide; lia.
    + assert (Hhs1 : <[s0 := hs0 ++ [log_histogram
                (Numpy.compress (class_mask data k0) v) b]]> d !! st = Some hs)
        by now rewrite lookup_insert_ne.
      destruct (IH _ _ Hrun Hhs1) as (hs' & Hd' & Hlen).
      exists hs'. split; [exact Hd'|]. rewrite fmap_cons.
      repeat case_decide; try lia.
      exfalso. match goal with H : st ∈ _ :: _ |- _ =>
        apply elem_of_cons in H as [E|H]; [now subst|contradiction] end.
Qed.

Lemma estimate_features_fields data self indices e :
  estimate_features data self indices = Some e ->
  _features e = _features self /\ _states e = _states self /\
  _classifier e = _classifier self /\
  length (_feature_bin_deltas e) = length (_feature_bin_deltas self) /\
  length (_feature_bin_mins e) = length (_feature_bin_mins self).
Proof.
  revert self. induction indices as [|i rest IH]; intros self Hrun.
  - simpl in Hrun. now injection Hrun as <-.
  - simpl in Hrun.
    apply bind_Some in Hrun as (v & Hv & Hrun).
    apply bind_Some in Hrun as (mn & Hmn & Hrun).
    apply bind_Some in Hrun as (mx & Hmx & Hrun).
    apply bind_Some in Hrun as (d & Happ & Hrun).
    destruct (IH _ Hrun) as (-> & -> & -> & -> & ->). simpl.
    now rewrite !length_insert.
Qed.

Lemma estimate_features_grows data self indices e st hs :
  estimate_features data self indices = Some e ->
  st ∈ _states self ->
  _distributions self !! st = Some hs ->
  exists hs', _distributions e !! st = Some hs' /\
    (length hs + length indices <= length hs')%nat.
Proof.
  revert self hs. induction indices as [|i rest IH]; intros self hs Hrun Hst Hhs.
  - simpl in Hrun. injection Hrun as <-. exists hs. split; [exact Hhs|simpl; lia].
  - simpl in Hrun.
    apply bind_Some in Hrun as (v & Hv & Hrun).
    apply bind_Some in Hrun as (mn & Hmn & Hrun).
    apply bind_Some in Hrun as (mx & Hmx & Hrun).
    apply bind_Some in Hrun as (d & Happ & Hrun).
    simpl in Happ.
    destruct (append_histograms_grows _ _ _ _ _ _ _ _ Happ Hhs) as (hs1 & Hd & Hlen).
    rewrite snd_enumerate, decide_True in Hlen by exact Hst.
    destruct (IH _ hs1 Hrun) as (hs' & He & Hlen'); [exact Hst|exact Hd|].
    exists hs'. split; [exact He|]. simpl. lia.
Qed.

Lemma estimate_features_stored data self indices e st i :
  estimate_features data self indices = Some e ->
  st ∈ _states self ->
  (i < length indices)%nat ->
  exists hs h, _distributions e !! st = Some hs /\ hs !! i = Some h.
Proof.
  intros Hrun Hst Hi.
  assert (is_Some (_distributions self !! st)) as [hs Hhs].
  { destruct indices as [|i0 rest]; [simpl in Hi; lia|].
    simpl in Hrun.
    apply bind_Some in Hrun as (v & Hv & Hrun).
    apply bind_Some in Hrun as (mn & Hmn & Hrun).
    apply bind_Some in Hrun as (mx & Hmx & Hrun).
    apply bind_Some in Hrun as (d & Happ & Hrun).
    simpl in Happ. eapply append_histograms_is_Some; [exact Happ|].
    now rewrite snd_enumerate. }
  destruct (estimate_features_grows _ _ _ _ _ _ Hrun Hst Hhs) as (hs' & He & Hlen).
  destruct (lookup_lt_is_Some_2 hs' i) as [h Hh]; [lia|].
  now exists hs', h.
Qed.

Lemma estimate_features_distributions data self indices e k st old :
  NoDup (_states self) ->
  estimate_features data self indices = Some e ->
  _states self !! k = Some st ->
  _distributions self !! st = Some old ->
  exists new, _distributions e !! st = Some (old ++ new) /\
    Forall2 (fun i h => feature_histogram data i k = Some h) indices new.
Proof.
  revert self old. induction indices as [|i rest IH]; intros self old Hnd Hrun Hk Hold.
  - simpl in Hrun. injection Hrun as <-. exists []. rewrite app_nil_r.
    split; [exact Hold|constructor].
  - simpl in Hrun.
    apply bind_Some in Hrun as (v & Hv & Hrun).
    apply bind_Some in Hrun as (mn & Hmn & Hrun).
    apply bind_Some in Hrun as (mx & Hmx & Hrun).
    apply bind_Some in Hrun as (d & Happ & Hrun).
    simpl in Happ.
    apply append_histograms_lookup in Happ as [Hin _];
      [|now rewrite snd_enumerate].
    destruct (Hin k st) as (hs & Hhs & Hd); [now apply elem_of_enumerate|].
    assert (hs = old) as -> by congruence.
    pose proof (fun Hnd' => IH _ _ Hnd' Hrun Hk Hd) as IH'.
    destruct (IH' Hnd) as (new & He & Hnew).
    eexists (_ :: new). rewrite <- app_assoc in He. split; [exact He|].
    constructor; [|exact Hnew].
    unfold feature_histogram. now rewrite Hv; simpl; rewrite Hmn; simpl; rewrite Hmx.
Qed.

End EstimateLoops.

(** ** Bin edges stored by [estimate] *)

Lemma edge_0 (mn mx : Q) : (edge mn mx 0 == mn)%Q.
Proof. unfold edge. simpl. ring. Qed.

Lemma edge_63 (mn mx : Q) : (edge mn mx 63 == mx)%Q.
Proof. unfold edge. simpl. field. Qed.

Lemma edge_step (mn mx : Q) : (edge mn mx 1 - edge mn mx 0 == (mx - mn) / 63)%Q.
Proof. unfold edge. simpl. field. Qed.

Lemma edge_linear (mn mx : Q) (k : nat) :
  (edge mn mx k == mn + inject_Z (Z.of_nat k) * (edge mn mx 1 - edge mn mx 0))%Q.
Proof. rewrite edge_step. reflexivity. Qed.

Section Bins.
Context {Seg : Type}.
Implicit Types (self e : EmmissionDistributions Seg).

Lemma estimate_features_bins data self indices e :
  NoDup indices ->
  estimate_features data self indices = Some e ->
  (forall i, i ∈ indices ->
     (i < length (_feature_bin_deltas self))%nat ->
     (i < length (_feature_bin_mins self))%nat ->
     exists v mn mx,
       column data i = Some v /\ Numpy.amin v = Some mn /\ Numpy.amax v = Some mx /\
       _feature_bin_deltas e !! i = Some (edge mn mx 1 - edge mn mx 0)%Q /\
       _feature_bin_mins e !! i = Some (edge mn mx 0)) /\
  (forall i, i ∉ indices ->
     _feature_bin_deltas e !! i = _feature_bin_deltas self !! i /\
     _feature_bin_mins e !! i = _feature_bin_mins self !! i).
Proof.
  revert self. induction indices as [|i0 rest IH]; intros self Hnd Hrun.
  - simpl in Hrun. injection Hrun as <-. split; [|done].
    intros i Hi. now apply elem_of_nil in Hi.
  - apply NoDup_cons in Hnd as [Hi0 Hnd].
    cbn [estimate_features] in Hrun.
    apply bind_Some in Hrun as (v & Hv & Hrun).
    apply bind_Some in Hrun as (mn & Hmn & Hrun).
    apply bind_Some in Hrun as (mx & Hmx & Hrun).
    apply bind_Some in Hrun as (d & Happ & Hrun).
    destruct (IH _ Hnd Hrun) as [IHin IHout]. split.
    + intros i Hi Hld Hlm. apply elem_of_cons in Hi as [->|Hi].
      * exists v, mn, mx. destruct (IHout _ Hi0) as [-> ->]. simpl.
        rewrite !list_lookup_insert_eq by assumption. done.
      * apply IHin; [exact Hi| |]; simpl; now rewrite length_insert.
    + intros i Hi. apply not_elem_of_cons in Hi as [Hne Hi].
      destruct (IHout _ Hi) as [-> ->]. simpl.
      now rewrite !list_lookup_insert_ne by done.
Qed.

Lemma estimate_Some self wvd traj data e :
  estimate self wvd traj data = Some e ->
  exists tbl, training_table self wvd traj data = Some tbl /\
    estimate_features tbl self (seq 0 (length (_features self))) = Some e.
Proof. intros H. now apply bind_Some in H. Qed.

End Bins.

(** ** Extrema *)

Lemma fold_Qmin_spec (l : list Q) (x : Q) :
  let m := fold_left Qmin l x in
  m ∈ x :: l /\ forall y, y ∈ x :: l -> (m <= y)%Q.
Proof.
  revert x. induction l as [|z l IH]; intros x; simpl.
  - split; [apply list_elem_of_here|].
    intros y Hy. apply list_elem_of_singleton in Hy as ->. apply Qle_refl.
  - destruct (IH (Qmin x z)) as [Hin Hle]. split.
    + apply elem_of_cons in Hin as [E|Hin].
      * rewrite E. unfold Qmin, GenericMinMax.gmin.
        destruct (x ?= z)%Q; auto using list_elem_of_here, list_elem_of_further.
      * auto using list_elem_of_further.
    + intros y Hy. apply elem_of_cons in Hy as [->|Hy].
      * eapply Qle_trans; [apply Hle, list_elem_of_here|]. apply Q.le_min_l.
      * apply elem_of_cons in Hy as [->|Hy].
        -- eapply Qle_trans; [apply Hle, list_elem_of_here|]. apply Q.le_min_r.
        -- apply Hle. now apply list_elem_of_further.
Qed.

Lemma fold_Qmax_spec (l : list Q) (x : Q) :
  let m := fold_left Qmax l x in
  m ∈ x :: l /\ forall y, y ∈ x :: l -> (y <= m)%Q.
Proof.
  revert x. induction l as [|z l IH]; intros x; simpl.
  - split; [apply list_elem_of_here|].
    intros y Hy. apply list_elem_of_singleton in Hy as ->. apply Qle_refl.
  - destruct (IH (Qmax x z)) as [Hin Hle]. split.
    + apply elem_of_cons in Hin as [E|Hin].
      * rewrite E. unfold Qmax, GenericMinMax.gmax.
        destruct (x ?= z)%Q; auto using list_elem_of_here, list_elem_of_further.
      * auto using list_elem_of_further.
    + intros y Hy. apply elem_of_cons in Hy as [->|Hy].
      * eapply Qle_trans; [apply Q.le_max_l|]. apply Hle, list_elem_of_here.
      * apply elem_of_cons in Hy as [->|Hy].
        -- eapply Qle_trans; [apply Q.le_max_r|]. apply Hle, list_elem_of_here.
        -- apply Hle. now apply list_elem_of_further.
Qed.

Lemma amin_spec (v : list Q) (m : Q) :
  Numpy.amin v = Some m -> m ∈ v /\ forall y, y ∈ v -> (m <= y)%Q.
Proof.
  destruct v as [|x l]; [discriminate|]. simpl. intros [= <-].
  apply fold_Qmin_spec.
Qed.

Lemma amax_spec (v : list Q) (m : Q) :
  Numpy.amax v = Some m -> m ∈ v /\ forall y, y ∈ v -> (y <= m)%Q.
Proof.
  destruct v as [|x l]; [discriminate|]. simpl. intros [= <-].
  apply fold_Qmax_spec.
Qed.

(** ** [evaluate] *)

Lemma getitem_in_range {A} (l : list A) (j : Z) (d : A) :
  (0 <= j < Z.of_nat (length l))%Z -> getitem l j = Some (nth (Z.to_nat j) l d).
Proof.
  intros Hj. unfold getitem, py_index.
  rewrite (proj2 (Z.leb_le 0 j)), (proj2 (Z.ltb_lt j _)) by lia. simpl.
  destruct (nth_lookup_or_length l (Z.to_nat j) d) as [->|Hlen]; [reflexivity|lia].
Qed.

Section Evaluate.
Context {Seg : Type}.
Implicit Types (self : EmmissionDistributions Seg).

Lemma evaluate_looked_up self seg st hs :
  _distributions self !! st = Some hs ->
  (length (_features self) <= length hs)%nat ->
  in_range self seg hs ->
  evaluate self seg st = Some (fold_left Rplus (looked_up self seg hs) 0%R).
Proof.
  intros Hhs Hlen Hrange. unfold evaluate.
  assert (Hmap : mapM (fun '(i, j) =>
              hs0 ← _distributions self !! st;
              h ← hs0 !! i;
              match j with Bin j0 => getitem h j0 | NonFinite => None end)
            (enumerate (_discritize self (feature self seg)))
          = Some (looked_up self seg hs)).
  { apply mapM_Some_2, Forall2_same_length_lookup_2.
    - unfold enumerate, _discritize, looked_up, bin_args, feature in *.
      rewrite length_imap, !length_map, !length_zip_with, length_map. lia.
    - intros i [i' j] y Hx Hy.
      unfold enumerate in Hx. apply list_lookup_imap_Some in Hx as (j' & Hj & E).
      injection E as <- <-.
      unfold _discritize in Hj. rewrite list_lookup_fmap in Hj.
      apply fmap_Some in Hj as ([val [db bmin]] & Hz & ->).
      apply lookup_zip_with_Some in Hz as (? & ? & E & Hval & Hz).
      injection E as <- <-.
      apply lookup_zip_with_Some in Hz as (? & ? & E & Hdb & Hbmin).
      injection E as <- <-.
      unfold looked_up in Hy. rewrite list_lookup_fmap in Hy.
      apply fmap_Some in Hy as ([val' [db' [bmin' h]]] & Hz & ->).
      pose proof (proj1 (Forall_lookup _ _) Hrange _ _ Hz) as [Hdb0 Hidx].
      unfold bin_args in Hz.
      apply lookup_zip_with_Some in Hz as (? & ? & E & Hval' & Hz).
      injection E as <- <-.
      apply lookup_zip_with_Some in Hz as (? & ? & E & Hdb' & Hz).
      injection E as <- <-.
      apply lookup_zip_with_Some in Hz as (? & ? & E & Hbmin' & Hh).
      injection E as <- <-.
      assert (val' = val) as -> by congruence.
      assert (db' = db) as -> by congruence.
      assert (bmin' = bmin) as -> by congruence.
      rewrite Hhs. simpl. rewrite Hh. simpl.
      destruct (Qeq_bool db 0) eqn:E.
      + apply Qeq_bool_iff in E. contradiction.
      + now apply getitem_in_range. }
  rewrite Hmap. reflexivity.
Qed.

End Evaluate.

(** ** A freshly constructed estimator *)

Lemma blank_distributions {Seg} (features : list (Seg -> Q)) states classifier st :
  st ∈ states -> _distributions (blank features states classifier) !! st = Some [].
Proof.
  unfold blank. simpl. induction states as [|s l IH]; intros Hin.
  - now apply elem_of_nil in Hin.
  - simpl. destruct (decide (s = st)) as [->|Hne].
    + apply lookup_insert_eq.
    + rewrite lookup_insert_ne by exact Hne. apply IH.
      apply elem_of_cons in Hin as [E|Hin]; [congruence|exact Hin].
Qed.

Lemma blank_all_hists {Seg} (features : list (Seg -> Q)) states classifier P :
  all_hists P (_distributions (blank features states classifier)).
Proof.
  unfold blank, all_hists. simpl. induction states as [|s l IH]; intros st hs h Hl Hin.
  - simpl in Hl. now rewrite lookup_empty in Hl.
  - simpl in Hl. destruct (decide (s = st)) as [->|Hne].
    + rewrite lookup_insert_eq in Hl. injection Hl as <-. now apply elem_of_nil in Hin.
    + rewrite lookup_insert_ne in Hl by exact Hne. exact (IH _ _ _ Hl Hin).
Qed.

(** ** What one call of [estimate] stores for a feature *)

Lemma column_filter (tbl : list Row) (i k : nat) (v : list Q) :
  column tbl i = Some v ->
  column (List.filter (fun row => bool_decide (row_class row = Z.of_nat k)) tbl) i
  = Some (Numpy.compress (class_mask tbl k) v).
Proof.
  unfold column. revert v. induction tbl as [|row tbl IH]; intros v Hv.
  - simpl in Hv. now injection Hv as <-.
  - rewrite mapM_Some in Hv. inversion Hv as [|? x ? v' Hx Hv' ]; subst.
    apply mapM_Some in Hv'. specialize (IH _ Hv'). simpl.
    destruct (bool_decide (row_class row = Z.of_nat k)); [|exact IH].
    apply mapM_Some. constructor; [exact Hx|]. now apply mapM_Some.
Qed.

Lemma column_rows (tbl : list Row) (i : nat) (v : list Q) :
  column tbl i = Some v ->
  length v = length tbl /\
  forall row, row ∈ tbl -> exists x, row_fv row !! i = Some x /\ x ∈ v.
Proof.
  unfold column. intros Hv. apply mapM_Some in Hv. split.
  - symmetry. eapply Forall2_length, Hv.
  - intros row Hrow. induction Hv as [|r x tbl v Hx Hv IH].
    + now apply elem_of_nil in Hrow.
    + apply elem_of_cons in Hrow as [->|Hrow].
      * exists x. split; [exact Hx|apply list_elem_of_here].
      * destruct (IH Hrow) as (y & Hy & Hin). exists y.
        split; [exact Hy|now apply list_elem_of_further].
Qed.

Section Stored.
Context {Seg : Type}.
Implicit Types (self e : EmmissionDistributions Seg).

Lemma estimate_feature_summary self wvd traj data e :
  length (_feature_bin_deltas self) = length (_features self) ->
  length (_feature_bin_mins self) = length (_features self) ->
  estimate self wvd traj data = Some e ->
  exists tbl, training_table self wvd traj data = Some tbl /\
    forall i, (i < length (_features self))%nat ->
      exists v mn mx,
        column tbl i = Some v /\ Numpy.amin v = Some mn /\ Numpy.amax v = Some mx /\
        _feature_bin_deltas e !! i = Some (edge mn mx 1 - edge mn mx 0)%Q /\
        _feature_bin_mins e !! i = Some (edge mn mx 0) /\
        (NoDup (_states self) ->
         forall k st old,
           _states self !! k = Some st ->
           _distributions self !! st = Some old ->
           exists new,
             _distributions e !! st = Some (old ++ new) /\
             length new = length (_features self) /\
             new !! i = Some (log_histogram (Numpy.compress (class_mask tbl k) v)
                                            (Numpy.linspace mn mx 64))).
Proof.
  intros Hld Hlm Hest.
  apply estimate_Some in Hest as (tbl & Htbl & Hrun). exists tbl. split; [exact Htbl|].
  intros i Hi.
  destruct (estimate_features_bins _ _ _ _ (NoDup_seq 0 _) Hrun) as [Hin _].
  destruct (Hin i) as (v & mn & mx & Hv & Hmn & Hmx & Hd & Hm);
    [apply elem_of_seq; lia|lia|lia|].
  exists v, mn, mx. repeat (split; [assumption|]).
  intros Hnd k st old Hk Hold.
  destruct (estimate_features_distributions _ _ _ _ _ _ _ Hnd Hrun Hk Hold)
    as (new & He & Hnew).
  exists new. split; [exact He|].
  pose proof (Forall2_length _ _ _ Hnew) as Hlen. rewrite length_seq in Hlen.
  split; [now symmetry|].
  destruct (lookup_lt_is_Some_2 new i) as [h Hh]; [lia|].
  rewrite Hh. f_equal.
  assert (Hfh : feature_histogram tbl i k = Some h).
  { eapply (Forall2_lookup_lr _ _ _ i i h Hnew); [|exact Hh].
    apply lookup_seq_lt. exact Hi. }
  unfold feature_histogram in Hfh.
  rewrite Hv in Hfh; simpl in Hfh. rewrite Hmn in Hfh; simpl in Hfh.
  rewrite Hmx in Hfh; simpl in Hfh. now injection Hfh.
Qed.

End Stored.

(** * Specification statements *)

(** ** Histograms are probability vectors *)

(** C4.  A call of [estimate] that returns keeps every stored histogram the
    log2 of a probability vector (all probabilities positive, summing to
    one, hence [2 ** x] summing to one over the stored entries), and it
    leaves such a histogram stored for every state of the object and every
    registered feature. *)
Theorem estimate_histograms_normalised {Seg} (self e : EmmissionDistributions Seg)
    (wvd : WVD Seg) (traj : Traj) (data : option (list Row)) :
  all_hists normalised (_distributions self) ->
  estimate self wvd traj data = Some e ->
  all_hists normalised (_distributions e) /\
  forall st i, st ∈ _states self -> (i < length (_features self))%nat ->
    exists hs h, _distributions e !! st = Some hs /\ hs !! i = Some h /\
                 normalised h.
Proof.
  intros Hinv Hest. apply estimate_Some in Hest as (tbl & Htbl & Hrun).
  assert (Hall : all_hists normalised (_distributions e)).
  { eapply estimate_features_all; [|exact Hinv|exact Hrun].
    intros sample mn mx. apply log_histogram_normalised.
    rewrite length_linspace. lia. }
  split; [exact Hall|].
  intros st i Hst Hi.
  destruct (estimate_features_stored tbl self _ e st i Hrun Hst) as
    (hs & h & Hhs & Hh); [now rewrite length_seq|].
  exists hs, h. repeat split; try assumption.
  eapply Hall; [exact Hhs|]. eapply list_elem_of_lookup_2, Hh.
Qed.

Lemma estimate_histograms_normalised_witness :
  exists e,
    estimate (blank Ex.features Ex.states Ex.all_junk) Ex.wvd_0_63 [] None = Some e /\
    all_hists normalised (_distributions e) /\
    forall st i, st ∈ Ex.states -> (i < 1)%nat ->
      exists hs h, _distributions e !! st = Some hs /\ hs !! i = Some h /\
                   normalised h.
Proof.
  destruct (estimate (blank Ex.features Ex.states Ex.all_junk) Ex.wvd_0_63 [] None)
    as [e|] eqn:He.
  - exists e. split; [reflexivity|].
    exact (estimate_histograms_normalised _ e Ex.wvd_0_63 [] None
             (blank_all_hists Ex.features Ex.states Ex.all_junk normalised) He).
  - vm_compute in He. discriminate He.
Defined.

(** ** The bin partition *)

Lemma histogram_linspace_bin (sample : list Q) (mn mx : Q) (j : nat) :
  (j < 63)%nat ->
  Numpy.histogram sample (Numpy.linspace mn mx 64) !! j
  = Some (Numpy.count_if
            (Numpy.in_bin (edge mn mx j) (edge mn mx (S j)) (bool_decide (j = 62%nat)))
            sample).
Proof.
  intros Hj.
  rewrite (lookup_histogram sample _ j (edge mn mx j) (edge mn mx (S j)))
    by (apply lookup_linspace_64; lia).
  do 3 f_equal. apply bool_decide_ext. rewrite length_linspace. lia.
Qed.

(** C2, as the code has it.  On an object whose bin arrays have one slot
    per feature (as [__init__] makes them) and whose state names are
    distinct, for every feature [estimate] stores the minimum of the feature
    over the whole training table as bin minimum and [(max - min) / 63] as
    bin width: [linspace(mn, mx, 64)] gives 64 edges, hence 63 bins, not 64.  Edge [j] is [min + j * width], edge 63 is the
    maximum; bin [j] counts the values in [[edge j, edge (j+1))], the last
    bin (j = 62) those in [[edge 62, edge 63]] (see [in_bin_spec]). *)
Theorem estimate_partition_63_bins {Seg} (self e : EmmissionDistributions Seg)
    (wvd : WVD Seg) (traj : Traj) (data : option (list Row)) :
  length (_feature_bin_deltas self) = length (_features self) ->
  length (_feature_bin_mins self) = length (_features self) ->
  NoDup (_states self) ->
  estimate self wvd traj data = Some e ->
  exists tbl, training_table self wvd traj data = Some tbl /\
    forall i, (i < length (_features self))%nat -> uniform_partition tbl self e i.
Proof.
  intros Hld Hlm Hnd Hest.
  destruct (estimate_feature_summary _ _ _ _ _ Hld Hlm Hest) as (tbl & Htbl & Hsum).
  exists tbl. split; [exact Htbl|]. intros i Hi.
  destruct (Hsum i Hi) as (v & mn & mx & Hv & Hmn & Hmx & Hd & Hm & Hst).
  exists v, mn, mx, (edge mn mx 1 - edge mn mx 0)%Q, (edge mn mx 0).
  split_and!; try assumption.
  - apply edge_step.
  - apply edge_0.
  - intros j. unfold edge. simpl. field.
  - apply edge_63.
  - intros k st old Hk Hold.
    destruct (Hst Hnd k st old Hk Hold) as (new & He & _ & Hnew).
    eexists new, _. split; [exact He|]. split; [exact Hnew|].
    split; [|reflexivity]. rewrite length_log_histogram, length_linspace. reflexivity.
  - intros sample j Hj. now apply histogram_linspace_bin.
Qed.

Lemma estimate_partition_63_bins_witness :
  exists e,
    estimate (blank Ex.features Ex.states Ex.all_junk) Ex.wvd_0_63 [] None = Some e /\
    exists tbl,
      training_table (blank Ex.features Ex.states Ex.all_junk) Ex.wvd_0_63 [] None
      = Some tbl /\
      forall i, (i < 1)%nat ->
        uniform_partition tbl (blank Ex.features Ex.states Ex.all_junk) e i.
Proof.
  destruct (estimate (blank Ex.features Ex.states Ex.all_junk) Ex.wvd_0_63 [] None)
    as [e|] eqn:He.
  - exists e. split; [reflexivity|].
    apply (estimate_partition_63_bins (blank Ex.features Ex.states Ex.all_junk)
             e Ex.wvd_0_63 [] None);
      [reflexivity | reflexivity | | exact He].
    refine (bool_decide_unpack _ _). vm_compute. exact I.
  - vm_compute in He. discriminate He.
Defined.

(** C2, as the spec words it, fails: trained on the values 0 and 63 the
    stored bin width is 1, not [(63 - 0) / 64], and each stored histogram
    has 63 bins. *)
Lemma estimate_width_is_not_range_over_64 :
  exists e dlt h,
    estimate (blank Ex.features Ex.states Ex.all_junk) Ex.wvd_0_63 [] None = Some e /\
    (tbl ← training_table (blank Ex.features Ex.states Ex.all_junk)
                          Ex.wvd_0_63 [] None;
     column tbl 0) = Some [0; 63]%Q /\
    _feature_bin_deltas e = [dlt] /\ (dlt == 1)%Q /\ ~ (dlt == (63 - 0) / 64)%Q /\
    _distributions e !! "junk"%string = Some [h] /\ length h = 63%nat.
Proof.
  eexists _, _, _. split; [vm_compute; reflexivity|].
  split; [vm_compute; reflexivity|].
  split; [vm_compute; reflexivity|].
  split; [reflexivity|]. split; [intros H; vm_compute in H; discriminate H|].
  split; [vm_compute; reflexivity|]. vm_compute. reflexivity.
Qed.

(** ** Which rows define the bin range *)

(** C3, as the code has it.  The extrema behind the bin range of a feature
    are taken over every row of the training table, the rows of class [-1]
    included: both are attained in the column, and every row lies between
    them.  Only the histograms select rows, those of the state's class. *)
Theorem estimate_extrema_over_all_rows {Seg} (self e : EmmissionDistributions Seg)
    (wvd : WVD Seg) (traj : Traj) (data : option (list Row)) :
  length (_feature_bin_deltas self) = length (_features self) ->
  length (_feature_bin_mins self) = length (_features self) ->
  NoDup (_states self) ->
  estimate self wvd traj data = Some e ->
  exists tbl, training_table self wvd traj data = Some tbl /\
    forall i, (i < length (_features self))%nat -> extrema_over_table tbl self e i.
Proof.
  intros Hld Hlm Hnd Hest.
  destruct (estimate_feature_summary _ _ _ _ _ Hld Hlm Hest) as (tbl & Htbl & Hsum).
  exists tbl. split; [exact Htbl|]. intros i Hi.
  destruct (Hsum i Hi) as (v & mn & mx & Hv & Hmn & Hmx & Hd & Hm & Hst).
  destruct (amin_spec _ _ Hmn) as [Hmn_in Hmn_le].
  destruct (amax_spec _ _ Hmx) as [Hmx_in Hmx_le].
  destruct (column_rows _ _ _ Hv) as [_ Hrows].
  exists v, mn, mx, (edge mn mx 1 - edge mn mx 0)%Q, (edge mn mx 0).
  split_and!; try assumption.
  - intros row Hrow. destruct (Hrows row Hrow) as (x & Hx & Hin).
    exists x. split_and!; [exact Hx|now apply Hmn_le|now apply Hmx_le].
  - apply edge_0.
  - apply edge_step.
  - intros k st old Hk Hold.
    destruct (Hst Hnd k st old Hk Hold) as (new & He & _ & Hnew).
    eexists new, _. split; [exact He|]. split; [|exact Hnew].
    now apply column_filter.
Qed.

Lemma estimate_extrema_over_all_rows_witness :
  exists e,
    estimate (blank Ex.features Ex.states Ex.frame9_unlabelled) Ex.wvd_frame9 [] None
    = Some e /\
    exists tbl,
      training_table (blank Ex.features Ex.states Ex.frame9_unlabelled)
                     Ex.wvd_frame9 [] None = Some tbl /\
      forall i, (i < 1)%nat ->
        extrema_over_table tbl (blank Ex.features Ex.states Ex.frame9_unlabelled) e i.
Proof.
  destruct (estimate (blank Ex.features Ex.states Ex.frame9_unlabelled)
                     Ex.wvd_frame9 [] None) as [e|] eqn:He.
  - exists e. split; [reflexivity|].
    apply (estimate_extrema_over_all_rows
             (blank Ex.features Ex.states Ex.frame9_unlabelled)
             e Ex.wvd_frame9 [] None);
      [reflexivity | reflexivity | | exact He].
    refine (bool_decide_unpack _ _). vm_compute. exact I.
  - vm_compute in He. discriminate He.
Defined.

(** C3, as the spec words it, fails: the only row with value 63 has class
    [-1]; the rows with a class hold 0 and 10; the stored bin width is
    [(63 - 0) / 63], not [(10 - 0) / 63]. *)
Lemma estimate_extrema_include_sentinel_rows :
  exists e tbl dlt,
    estimate (blank Ex.features Ex.states Ex.frame9_unlabelled) Ex.wvd_frame9 [] None
    = Some e /\
    training_table (blank Ex.features Ex.states Ex.frame9_unlabelled)
                   Ex.wvd_frame9 [] None = Some tbl /\
    map row_class tbl = [0; 0; -1]%Z /\
    column tbl 0 = Some [0; 10; 63]%Q /\
    column (List.filter (fun row => negb (bool_decide (row_class row = (-1)%Z))) tbl) 0
    = Some [0; 10]%Q /\
    _feature_bin_deltas e = [dlt] /\
    (dlt == (63 - 0) / 63)%Q /\ ~ (dlt == (10 - 0) / 63)%Q.
Proof.
  eexists _, _, _. split; [vm_compute; reflexivity|].
  split; [vm_compute; reflexivity|].
  split; [vm_compute; reflexivity|].
  split; [vm_compute; reflexivity|].
  split; [vm_compute; reflexivity|].
  split; [vm_compute; reflexivity|].
  split; [reflexivity|]. intros H. vm_compute in H. discriminate H.
Qed.

(** ** [evaluate] sums the stored log2 probabilities *)

(** X23.  [evaluate] within the fitted bins.  Let [e] be fitted by one
    call of [estimate] on a freshly constructed estimator with distinct
    state names, and let [hs] be what it stores for the state [st] of index
    [k]: one histogram per registered feature, that of the rows of class
    [k].  For a segment whose every bin index
    [floor((value - min) / binWidth)] is a position of its histogram,
    [evaluate] returns the sum, over the registered features, of the entry
    stored at that index. *)
Theorem evaluate_sums_fitted_bins {Seg} (features : list (Seg -> Q))
    (states : list string) (classifier : Classifier Seg)
    (wvd : WVD Seg) (traj : Traj) (data : option (list Row))
    (e : EmmissionDistributions Seg) (seg : Seg) (k : nat) (st : string)
    (hs : list (list R)) :
  NoDup states ->
  estimate (blank features states classifier) wvd traj data = Some e ->
  states !! k = Some st ->
  _distributions e !! st = Some hs ->
  in_range e seg hs ->
  evaluate e seg st = Some (fold_left Rplus (looked_up e seg hs) 0%R) /\
  length (looked_up e seg hs) = length features /\
  exists tbl,
    training_table (blank features states classifier) wvd traj data = Some tbl /\
    Forall2 (fun i h => feature_histogram tbl i k = Some h)
            (seq 0 (length features)) hs.
Proof.
  intros Hnd Hest Hk Hhs Hrange.
  apply estimate_Some in Hest as (tbl & Htbl & Hrun).
  destruct (estimate_features_fields _ _ _ _ Hrun) as (Hf & _ & _ & Hld & Hlm).
  simpl in Hf, Hld, Hlm. rewrite length_replicate in Hld, Hlm.
  assert (Hin : st ∈ states) by (eapply list_elem_of_lookup_2, Hk).
  destruct (estimate_features_distributions tbl (blank features states classifier)
              _ e k st [] Hnd Hrun Hk
              (blank_distributions features states classifier st Hin))
    as (new & He & Hnew).
  simpl in He. assert (new = hs) as -> by congruence.
  pose proof (Forall2_length _ _ _ Hnew) as Hlen. rewrite length_seq in Hlen.
  simpl in Hlen. split_and!.
  - apply evaluate_looked_up; [exact Hhs| |exact Hrange]. rewrite Hf. lia.
  - unfold looked_up, bin_args, feature.
    rewrite length_map, !length_zip_with, length_map, Hf. lia.
  - exists tbl. split; [exact Htbl|exact Hnew].
Qed.

Lemma evaluate_sums_fitted_bins_witness :
  exists e hs,
    estimate (blank Ex.features Ex.states Ex.all_junk) Ex.wvd_0_63 [] None = Some e /\
    _distributions e !! "junk"%string = Some hs /\
    in_range e 0%Q hs /\
    evaluate e 0%Q "junk"%string = Some (fold_left Rplus (looked_up e 0%Q hs) 0%R).
Proof.
  eexists _, _.
  split; [vm_compute; reflexivity|].
  split; [vm_compute; reflexivity|].
  split.
  - constructor; [|constructor].
    split; [intros H; vm_compute in H; discriminate H|].
    vm_compute. split; [intros H; discriminate H|reflexivity].
  - refine (proj1 (evaluate_sums_fitted_bins Ex.features Ex.states Ex.all_junk
                     Ex.wvd_0_63 [] None _ 0%Q 0 "junk"%string _ _ _ _ _ _)).
    + refine (bool_decide_unpack _ _). vm_compute. exact I.
    + vm_compute. reflexivity.
    + reflexivity.
    + vm_compute. reflexivity.
    + constructor; [|constructor].
      split; [intros H; vm_compute in H; discriminate H|].
      vm_compute. split; [intros H; discriminate H|reflexivity].
Defined.

(** C1: [evaluate] raises on the training maximum.  The estimator is
    fitted on segments with the values 0 and 63, so the 64 edges are
    0, 1, ..., 63 and every histogram has 63 bins.  [histogram] counts the
    training maximum 63 in the last bin, number 62, which is closed on the
    right; [_discritize] gives the same value the bin index
    [floor((63 - 0) / 1) = 63], one past the last position, and [evaluate]
    on that training segment raises instead of returning the sum of the
    stored entries. *)
Lemma evaluate_raises_at_training_max :
  exists e h,
    estimate (blank Ex.features Ex.states Ex.all_junk) Ex.wvd_0_63 [] None = Some e /\
    iter_whiskers Ex.wvd_0_63 = [(0, 0, 0%Q); (0, 1, 63%Q)]%Z /\
    Forall2 Qeq (_feature_bin_mins e) [0%Q] /\
    Forall2 Qeq (_feature_bin_deltas e) [1%Q] /\
    _distributions e !! "junk"%string = Some [h] /\ length h = 63%nat /\
    Numpy.histogram [63%Q] (Numpy.linspace 0 63 64) !! 62%nat = Some 1%nat /\
    Numpy.in_bin 62 63 true 63 = true /\
    _discritize e (feature e 63%Q) = [Bin 63] /\
    evaluate e 63%Q "junk"%string = None.
Proof.
  eexists _, _. split; [vm_compute; reflexivity|].
  split; [reflexivity|].
  split; [repeat constructor|]. split; [repeat constructor|].
  split; [vm_compute; reflexivity|]. split; [vm_compute; reflexivity|].
  split; [vm_compute; reflexivity|]. split; [vm_compute; reflexivity|].
  split; vm_compute; reflexivity.
Qed.

(** ** Out-of-range values and retraining *)

(** C9: the code silently reads an unrelated bin.  The estimator is fitted
    on the values 0 and 63 (bin minimum 0, bin width 1, 63 bins); bin 0
    holds one training value and stores [log2(2/65)], bin 61 holds none and
    stores [log2(1/65)].  The value [-2] lies below the fitted range, its
    bin index is [-2], and [evaluate] neither raises nor answers from the
    nearest edge bin 0: it returns the entry of bin 61, which covers
    [[61, 62)], the same result as for the value 61 and a different one
    from that for the value 0. *)
Theorem evaluate_below_range_wraps_around :
  exists e h,
    estimate (blank Ex.features Ex.states Ex.all_junk) Ex.wvd_0_63 [] None = Some e /\
    Forall2 Qeq (_feature_bin_mins e) [0%Q] /\
    Forall2 Qeq (_feature_bin_deltas e) [1%Q] /\
    _discritize e (feature e (-2)%Q) = [Bin (-2)] /\
    _distributions e !! "junk"%string = Some [h] /\ length h = 63%nat /\
    h !! 0%nat = Some (Numpy.log2 (Q2R (2 # 65))) /\
    h !! 61%nat = Some (Numpy.log2 (Q2R (1 # 65))) /\
    evaluate e (-2)%Q "junk"%string = Some (0 + Numpy.log2 (Q2R (1 # 65)))%R /\
    evaluate e 61%Q "junk"%string = Some (0 + Numpy.log2 (Q2R (1 # 65)))%R /\
    evaluate e 0%Q "junk"%string = Some (0 + Numpy.log2 (Q2R (2 # 65)))%R /\
    evaluate e (-2)%Q "junk"%string <> evaluate e 0%Q "junk"%string.
Proof.
  eexists _, _. split; [vm_compute; reflexivity|].
  split; [repeat constructor|]. split; [repeat constructor|].
  split; [vm_compute; reflexivity|]. split; [vm_compute; reflexivity|].
  split; [vm_compute; reflexivity|]. split; [vm_compute; reflexivity|].
  split; [vm_compute; reflexivity|].
  match goal with |- ?a = ?b /\ _ /\ ?c = ?d /\ _ =>
    assert (Ha : a = b) by (vm_compute; reflexivity);
    assert (Hc : c = d) by (vm_compute; reflexivity)
  end.
  split; [exact Ha|]. split; [vm_compute; reflexivity|]. split; [exact Hc|].
  rewrite Ha, Hc. intros [= H]. apply Rplus_eq_reg_l in H.
  apply log2_inj in H; unfold Q2R in *; simpl in *; lra.
Qed.

(** C8: [estimate] appends to the stored histograms instead of replacing
    them.  After [estimate] on the values 0, 63 and then on 0, 0, 63 the
    state "junk" holds two histograms for the one feature, and [evaluate]
    still answers from the first: its result is the one of the estimator
    trained on the first set only, and differs from the one of a fresh
    estimator trained on the second set. *)
Theorem estimate_twice_reads_stale_histograms :
  exists e1 e12 e2 hs,
    estimate (blank Ex.features Ex.states Ex.all_junk) Ex.wvd_0_63 [] None = Some e1 /\
    estimate e1 Ex.wvd_0_0_63 [] None = Some e12 /\
    estimate (blank Ex.features Ex.states Ex.all_junk) Ex.wvd_0_0_63 [] None = Some e2 /\
    _distributions e12 !! "junk"%string = Some hs /\ length hs = 2%nat /\
    evaluate e12 0%Q "junk"%string = evaluate e1 0%Q "junk"%string /\
    evaluate e12 0%Q "junk"%string = Some (0 + Numpy.log2 (Q2R (2 # 65)))%R /\
    evaluate e2 0%Q "junk"%string = Some (0 + Numpy.log2 (Q2R (3 # 66)))%R /\
    evaluate e12 0%Q "junk"%string <> evaluate e2 0%Q "junk"%string.
Proof.
  eexists _, _, _, _. split; [vm_compute; reflexivity|].
  split; [vm_compute; reflexivity|]. split; [vm_compute; reflexivity|].
  split; [vm_compute; reflexivity|]. split; [vm_compute; reflexivity|].
  split; [vm_compute; reflexivity|].
  match goal with |- ?a = ?b /\ ?c = ?d /\ _ =>
    assert (Ha : a = b) by (vm_compute; reflexivity);
    assert (Hc : c = d) by (vm_compute; reflexivity)
  end.
  split; [exact Ha|]. split; [exact Hc|].
  rewrite Ha, Hc. intros [= H]. apply Rplus_eq_reg_l in H.
  apply log2_inj in H; unfold Q2R in *; simpl in *; lra.
Qed.

(** ** The binary classifier *)

Lemma two_state_classifier_eq {Seg} (traj : Traj) (wvd : WVD Seg) (traj' : Traj)
    (a b : Z) :
  EDTwoState._make_classifer traj wvd traj' a b
  = Some (if decide (b ∈ EDTwoState.frames traj)
          then Z.b2z (bool_decide ((a, b) ∈ EDTwoState.labelled traj))
          else (-1)%Z).
Proof. reflexivity. Qed.

(** C5: the code tests the segment id, not the frame id, against the
    labelled frames.  With the single trajectory "segment 7 in frame 5",
    the call [classifier(wvd, traj, 5, 7)] on the labelled pair returns
    [-1] although frame 5 is labelled, and [classifier(wvd, traj, 7, 5)]
    returns 0 although frame 7 appears in no trajectory. *)
Theorem two_state_classifier_tests_segment_id :
  ((5, 7)%Z ∈ EDTwoState.labelled Ex.traj_5_7) /\
  (5%Z ∈ EDTwoState.frames Ex.traj_5_7) /\
  (7%Z ∉ EDTwoState.frames Ex.traj_5_7) /\
  EDTwoState._make_classifer Ex.traj_5_7 ([] : WVD Q) Ex.traj_5_7 5%Z 7%Z
  = Some (-1)%Z /\
  EDTwoState._make_classifer Ex.traj_5_7 ([] : WVD Q) Ex.traj_5_7 7%Z 5%Z
  = Some 0%Z.
Proof.
  split_and!; try (vm_compute; reflexivity);
    refine (bool_decide_unpack _ _); vm_compute; exact I.
Qed.

(** ** Time-independent training *)

(** C6: a row of [T] without a counted transition is not normalised.  For
    one frame holding one labelled segment the start and end vectors are
    stochastic, but both rows of [T] have count sum 0 and are stored as
    NaN. *)
Theorem train_time_independent_nan_rows :
  exists S T E,
    LeftRightModel.train_time_independent Ex.wvd_single Ex.traj_single
    = Some (S, T, E) /\
    T = [[NaN; NaN]; [NaN; NaN]] /\
    Forall (fun row => ~ LeftRightModel.stochastic row) T /\
    LeftRightModel.stochastic S /\ LeftRightModel.stochastic E.
Proof.
  assert (Hcount :
    LeftRightModel.count_frames
      (EDTwoState._make_classifer Ex.traj_single Ex.wvd_single Ex.traj_single)
      (map fst Ex.wvd_single) (map fst Ex.wvd_single)
      ([0; 0]%Z, [[0; 0]; [0; 0]]%Z, [0; 0]%Z)
    = Some ([0; 1]%Z, [[0; 0]; [0; 0]]%Z, [0; 1]%Z)) by (vm_compute; reflexivity).
  assert (Hone : LeftRightModel.stochastic
                   (LeftRightModel.normalise_log2 [0; 1]%Z)).
  { eexists. split; [reflexivity|]. simpl.
    change (inject_Z 1 / inject_Z (0 + (1 + 0)))%Q with 1%Q.
    replace (Q2R 1) with 1%R by (unfold Q2R; simpl; lra).
    rewrite exp2_log2 by lra. lra. }
  eexists _, _, _. unfold LeftRightModel.train_time_independent.
  rewrite Hcount. split; [reflexivity|]. split; [reflexivity|].
  split; [|split; exact Hone].
  repeat constructor; intros (ps & Hps & _); discriminate Hps.
Qed.

(** ** The ordinal classifier's state names *)

Lemma whisker_name_inj : Inj (=) (=) whisker_name.
Proof.
  intros k1 k2 H. unfold whisker_name in H.
  apply (inj (String.app "whisker")) in H. now apply (inj pretty) in H.
Qed.

Lemma junk_name_inj : Inj (=) (=) junk_name.
Proof.
  intros k1 k2 H. unfold junk_name in H.
  apply (inj (String.app "junk")) in H. now apply (inj pretty) in H.
Qed.

Lemma whisker_name_ne_junk_name (k j : nat) : whisker_name k <> junk_name j.
Proof. unfold whisker_name, junk_name. simpl. discriminate. Qed.

Section Names.
Context {Seg : Type}.

Lemma label_frame_names (labelled : gset (Z * Z)) (fid : Z) (items : list (Z * Seg))
    (t : nat) cm (st : gset string) t' cm' st' :
  EDMultiState.label_frame labelled fid items t cm st = (t', cm', st') ->
  (t <= t')%nat /\ st ⊆ st' /\
  (forall k, (t <= k < t')%nat -> whisker_name k ∈ st') /\
  (forall name, name ∈ st' ->
     name ∈ st \/ (exists k, (k < t')%nat /\ name = whisker_name k) \/
     (exists k, (k <= t')%nat /\ name = junk_name k)).
Proof.
  revert t cm st. induction items as [|[wid w] rest IH]; intros t cm st Hrun.
  - simpl in Hrun. injection Hrun as <- <- <-. split_and!; [lia|done|lia|auto].
  - simpl in Hrun. destruct (decide ((fid, wid) ∈ labelled)) as [Hl|Hl].
    + destruct (IH _ _ _ Hrun) as (Ht & Hsub & Hw & Hn). split_and!.
      * lia.
      * intros x Hx. apply Hsub, elem_of_union_r, Hx.
      * intros k Hk. destruct (decide (k = t)) as [->|Hne].
        -- apply Hsub, elem_of_union_l, elem_of_singleton. reflexivity.
        -- apply Hw. lia.
      * intros name Hname. destruct (Hn name Hname) as [Hin|Hnew]; [|auto].
        apply elem_of_union in Hin as [Hin|Hin]; [|auto].
        apply elem_of_singleton in Hin as ->. right. left. exists t. split; [lia|done].
    + destruct (IH _ _ _ Hrun) as (Ht & Hsub & Hw & Hn). split_and!.
      * lia.
      * intros x Hx. apply Hsub, elem_of_union_r, Hx.
      * exact Hw.
      * intros name Hname. destruct (Hn name Hname) as [Hin|Hnew]; [|auto].
        apply elem_of_union in Hin as [Hin|Hin]; [|auto].
        apply elem_of_singleton in Hin as ->. right. right. exists t. split; [lia|done].
Qed.

Lemma label_frames_names (y0 : Seg -> Q) (labelled : gset (Z * Z)) (wvd : WVD Seg)
    (b : EDMultiState.Built) :
  names_fit (EDMultiState._nsteps b) (EDMultiState.states b) ->
  names_fit (EDMultiState._nsteps (EDMultiState.label_frames y0 labelled wvd b))
            (EDMultiState.states (EDMultiState.label_frames y0 labelled wvd b)).
Proof.
  revert b. induction wvd as [|[fid wv] rest IH]; intros b Hfit; [exact Hfit|].
  simpl.
  destruct (EDMultiState.label_frame labelled fid
              (EDMultiState.sorted (fun a b0 => EDMultiState.wcmp y0 a.2 b0.2) wv)
              0 (EDMultiState.classmap b) (EDMultiState.states b))
    as [[t cm] st] eqn:Hframe.
  apply IH. simpl.
  destruct (label_frame_names _ _ _ _ _ _ _ _ _ Hframe) as (_ & Hsub & Hw & Hn).
  destruct Hfit as [Hfw Hfn]. split.
  - intros k Hk. destruct (decide (k < t)%nat) as [Hlt|Hge].
    + apply Hw. lia.
    + apply Hsub, Hfw. lia.
  - intros name Hname. destruct (Hn name Hname) as [Hin|[(k & Hk & ->)|(k & Hk & ->)]].
    + destruct (Hfn name Hin) as [(k & Hk & ->)|(k & Hk & ->)].
      * left. exists k. split; [lia|done].
      * right. exists k. split; [lia|done].
    + left. exists k. split; [lia|done].
    + right. exists k. split; [lia|done].
Qed.

Lemma build_names (y0 : Seg -> Q) (wvd : WVD Seg) (traj : Traj) :
  names_fit (EDMultiState._nsteps (EDMultiState.build y0 wvd traj))
            (EDMultiState.states (EDMultiState.build y0 wvd traj)).
Proof.
  apply label_frames_names. simpl. split.
  - intros k Hk. lia.
  - intros name Hname. now apply elem_of_empty in Hname.
Qed.

End Names.

Lemma size_names (f : nat -> string) (n : nat) :
  Inj (=) (=) f -> size (list_to_set (f <$> seq 0 n) : gset string) = n.
Proof.
  intros Hinj. rewrite size_list_to_set.
  - now rewrite length_fmap, length_seq.
  - apply NoDup_fmap_2; [exact Hinj|apply NoDup_seq].
Qed.

Lemma names_fit_size (n : nat) (st : gset string) :
  names_fit n st -> (n <= size st <= 2 * n + 1)%nat.
Proof.
  intros [Hw Hn].
  pose proof (size_names whisker_name n whisker_name_inj) as HW.
  pose proof (size_names junk_name (S n) junk_name_inj) as HJ.
  set (W := list_to_set (whisker_name <$> seq 0 n) : gset string) in *.
  set (J := list_to_set (junk_name <$> seq 0 (S n)) : gset string) in *.
  assert (HWst : W ⊆ st).
  { intros name Hin. apply elem_of_list_to_set, list_elem_of_fmap in Hin
      as (k & -> & Hk). apply elem_of_seq in Hk. apply Hw. lia. }
  assert (HstWJ : st ⊆ W ∪ J).
  { intros name Hin. destruct (Hn name Hin) as [(k & Hk & ->)|(k & Hk & ->)].
    - apply elem_of_union_l, elem_of_list_to_set, list_elem_of_fmap.
      exists k. split; [done|]. apply elem_of_seq. lia.
    - apply elem_of_union_r, elem_of_list_to_set, list_elem_of_fmap.
      exists k. split; [done|]. apply elem_of_seq. lia. }
  apply subseteq_size in HWst, HstWJ.
  rewrite size_union_alt in HstWJ.
  assert (size (J ∖ W) <= size J)%nat.
  { apply subseteq_size. intros x Hx. now apply elem_of_difference in Hx as [? _]. }
  lia.
Qed.

(** C7, as the code has it.  The discovered names are exactly the
    ["whisker<k>"] with [k < nsteps] together with some ["junk<k>"], all with
    [k <= nsteps]; so the set holds between [nsteps] and [2 * nsteps + 1]
    names. *)
Theorem multi_state_names_bounds {Seg} (y0 : Seg -> Q) (wvd : WVD Seg) (traj : Traj) :
  let b := EDMultiState.build y0 wvd traj in
  (forall k, whisker_name k ∈ EDMultiState.states b <-> (k < EDMultiState._nsteps b)%nat) /\
  (forall k, junk_name k ∈ EDMultiState.states b -> (k <= EDMultiState._nsteps b)%nat) /\
  (forall name, name ∈ EDMultiState.states b ->
     exists k, name = whisker_name k \/ name = junk_name k) /\
  (EDMultiState._nsteps b <= size (EDMultiState.states b) <= 2 * EDMultiState._nsteps b + 1)%nat /\
  length (EDMultiState._states b) = size (EDMultiState.states b).
Proof.
  intros b. pose proof (build_names y0 wvd traj) as Hfit. fold b in Hfit.
  pose proof Hfit as [Hw Hn]. split_and!.
  - intros k. split; [|apply Hw].
    intros Hin. destruct (Hn _ Hin) as [(k' & Hk & E)|(k' & Hk & E)].
    + apply whisker_name_inj in E as ->. exact Hk.
    + now apply whisker_name_ne_junk_name in E.
  - intros k Hin. destruct (Hn _ Hin) as [(k' & Hk & E)|(k' & Hk & E)].
    + symmetry in E. now apply whisker_name_ne_junk_name in E.
    + apply junk_name_inj in E as ->. exact Hk.
  - intros name Hin. destruct (Hn _ Hin) as [(k & _ & ->)|(k & _ & ->)]; eauto.
  - now apply names_fit_size.
  - now apply names_fit_size.
  - reflexivity.
Qed.

(** C7, as the spec words it, fails: one frame holding one labelled segment
    gives [nsteps = 1] and the single name "whisker0"; one labelled segment
    between two unlabelled ones gives [nsteps = 1] and three names. *)
Lemma multi_state_single_whisker :
  let b := EDMultiState.build (fun seg : Q => seg) Ex.wvd_single Ex.traj_single in
  let b3 := EDMultiState.build (fun seg : Q => seg) Ex.wvd_three Ex.traj_middle in
  EDMultiState._nsteps b = 1%nat /\
  EDMultiState._states b = ["whisker0"%string] /\
  size (EDMultiState.states b) <> (2 * EDMultiState._nsteps b)%nat /\
  EDMultiState._nsteps b3 = 1%nat /\
  size (EDMultiState.states b3) = 3%nat /\
  size (EDMultiState.states b3) <> (2 * EDMultiState._nsteps b3)%nat.
Proof. vm_compute. split_and!; try reflexivity; discriminate. Qed.

(** ** The transition matrix *)

Lemma square_setitem2 (n : nat) (T : list (list R)) (i j : nat) (x : R) :
  square n T -> square n (LeftRightModel.setitem2 T i j x).
Proof.
  intros [Hlen Hrows]. unfold LeftRightModel.setitem2. split.
  - now rewrite length_alter.
  - apply Forall_lookup. intros i' row Hrow.
    rewrite list_lookup_alter in Hrow. case_decide as Hi.
    + apply fmap_Some in Hrow as (row0 & Hrow0 & ->). rewrite length_insert.
      exact (proj1 (Forall_lookup _ _) Hrows _ _ Hrow0).
    + exact (proj1 (Forall_lookup _ _) Hrows _ _ Hrow).
Qed.

Lemma entry_setitem2 (n : nat) (T : list (list R)) (i0 j0 i j : nat) (x : R) :
  square n T -> (i0 < n)%nat -> (j0 < n)%nat ->
  entry (LeftRightModel.setitem2 T i0 j0 x) i j
  = if decide (i = i0 /\ j = j0) then Some x else entry T i j.
Proof.
  intros [Hlen Hrows] Hi0 Hj0. unfold entry, LeftRightModel.setitem2.
  rewrite list_lookup_alter.
  destruct (decide (i0 = i)) as [<-|Hne].
  - destruct (lookup_lt_is_Some_2 T i0) as [row Hrow]; [lia|].
    rewrite Hrow. simpl.
    pose proof (proj1 (Forall_lookup _ _) Hrows _ _ Hrow) as Hlr. simpl in Hlr.
    destruct (decide (j = j0)) as [->|Hnej].
    + rewrite decide_True by done. apply list_lookup_insert_eq. lia.
    + rewrite decide_False by (intros [_ ?]; done).
      now rewrite list_lookup_insert_ne by done.
  - rewrite decide_False by (intros [? _]; done). reflexivity.
Qed.

Lemma enumerate_snoc {A} (l : list A) (x : A) :
  enumerate (l ++ [x]) = enumerate l ++ [(length l, x)].
Proof.
  unfold enumerate. rewrite imap_app. simpl. now rewrite Nat.add_0_r.
Qed.

Section TransitionMatrix.
Context (tr : gmap string (gmap string R)) (n : nat).

Lemma fill_row_spec (isrc : nat) (src : string) (T : list (list R))
    (dsts : list string) :
  square n T -> (isrc < n)%nat -> (length dsts <= n)%nat ->
  let T' := LeftRightModel.fill_row tr isrc src T (enumerate dsts) in
  square n T' /\
  forall i j,
    entry T' i j
    = match (if decide (i = isrc) then dsts !! j ≫= stored_transition tr src
             else None) with
      | Some logp => Some logp
      | None => entry T i j
      end.
Proof.
  intros Hsq Hisrc. induction dsts as [|dst dsts IH] using rev_ind; intros Hlen.
  - simpl. split; [exact Hsq|]. intros i j. now case_decide.
  - rewrite length_app in Hlen. simpl in Hlen.
    destruct IH as [IHsq IHe]; [lia|].
    unfold LeftRightModel.fill_row in *. rewrite enumerate_snoc, fold_left_app.
    set (T1 := fold_left _ (enumerate dsts) T) in *. simpl.
    assert (Hst : stored_transition tr src dst
                  = match tr !! src with
                    | Some row => row !! dst
                    | None => None
                    end) by (unfold stored_transition; now destruct (tr !! src)).
    assert (Hstep : forall j,
      dsts !! j ≫= stored_transition tr src = None ->
      (dsts ++ [dst]) !! j ≫= stored_transition tr src
      = if decide (j = length dsts) then stored_transition tr src dst else None).
    { intros j Hnone. destruct (decide (j = length dsts)) as [->|Hne].
      - now rewrite list_lookup_middle.
      - destruct (decide (j < length dsts)%nat).
        + now rewrite lookup_app_l.
        + rewrite lookup_ge_None_2; [done|]. rewrite length_app. simpl. lia. }
    assert (Hkeep : forall j logp,
      dsts !! j ≫= stored_transition tr src = Some logp ->
      (dsts ++ [dst]) !! j ≫= stored_transition tr src = Some logp /\
      j <> length dsts).
    { intros j logp Hsome. destruct (dsts !! j) as [d|] eqn:Hd; [|done].
      pose proof (lookup_lt_Some _ _ _ Hd). rewrite lookup_app_l, Hd by lia.
      split; [exact Hsome|lia]. }
    destruct (tr !! src) as [row|] eqn:Hrow; [destruct (row !! dst) as [logp|] eqn:Hd|].
    + split; [now apply square_setitem2|]. intros i j.
      rewrite (entry_setitem2 n) by (done || lia). rewrite IHe.
      destruct (decide (i = isrc)) as [->|Hne].
      * destruct (dsts !! j ≫= stored_transition tr src) as [p|] eqn:Hp.
        -- destruct (Hkeep _ _ Hp) as [-> Hj].
           now rewrite decide_False by lia.
        -- rewrite (Hstep j Hp), Hst. case_decide as Hj.
           ++ now rewrite decide_True.
           ++ now rewrite decide_False by lia.
      * now rewrite decide_False by lia.
    + split; [exact IHsq|]. intros i j. rewrite IHe.
      destruct (decide (i = isrc)) as [->|Hne]; [|reflexivity].
      destruct (dsts !! j ≫= stored_transition tr src) as [p|] eqn:Hp.
      * now destruct (Hkeep _ _ Hp) as [-> _].
      * rewrite (Hstep j Hp), Hst. now case_decide.
    + split; [exact IHsq|]. intros i j. rewrite IHe.
      destruct (decide (i = isrc)) as [->|Hne]; [|reflexivity].
      destruct (dsts !! j ≫= stored_transition tr src) as [p|] eqn:Hp.
      * now destruct (Hkeep _ _ Hp) as [-> _].
      * rewrite (Hstep j Hp), Hst. now case_decide.
Qed.

End TransitionMatrix.

Section TransitionRows.
Context (tr : gmap string (gmap string R)) (n : nat) (dsts : list string).

Lemma fill_rows_spec (T : list (list R)) (srcs : list string) :
  square n T -> (length dsts <= n)%nat -> (length srcs <= n)%nat ->
  let T' := fold_left
              (fun T '(isrc, src) =>
                 LeftRightModel.fill_row tr isrc src T (enumerate dsts))
              (enumerate srcs) T in
  square n T' /\
  forall i j,
    entry T' i j
    = match (src ← srcs !! i; dsts !! j ≫= stored_transition tr src) with
      | Some logp => Some logp
      | None => entry T i j
      end.
Proof.
  intros Hsq Hd. induction srcs as [|src srcs IH] using rev_ind; intros Hlen.
  - simpl. split; [exact Hsq|]. reflexivity.
  - rewrite length_app in Hlen. simpl in Hlen.
    destruct IH as [IHsq IHe]; [lia|].
    rewrite enumerate_snoc, fold_left_app.
    set (T1 := fold_left _ (enumerate srcs) T) in *. simpl.
    destruct (fill_row_spec tr n (length srcs) src T1 dsts IHsq) as [Hsq' He'];
      [lia|exact Hd|].
    split; [exact Hsq'|]. intros i j. rewrite He', IHe.
    destruct (decide (i = length srcs)) as [->|Hne].
    + rewrite list_lookup_middle by done. simpl.
      destruct (dsts !! j ≫= stored_transition tr src); [reflexivity|].
      now rewrite (lookup_ge_None_2 srcs (length srcs)) by lia.
    + destruct (decide (i < length srcs)%nat).
      * now rewrite lookup_app_l by lia.
      * rewrite (lookup_ge_None_2 srcs i) by lia.
        rewrite (lookup_ge_None_2 (srcs ++ [src]) i); [reflexivity|].
        rewrite length_app. simpl. lia.
Qed.

End TransitionRows.

Lemma entry_zeros (n i j : nat) :
  (i < n)%nat -> (j < n)%nat -> entry (replicate n (replicate n 0%R)) i j = Some 0%R.
Proof.
  intros Hi Hj. unfold entry. rewrite lookup_replicate_2 by exact Hi. simpl.
  now apply lookup_replicate_2.
Qed.

Lemma square_zeros (n : nat) : square n (replicate n (replicate n 0%R)).
Proof.
  split; [apply length_replicate|].
  apply Forall_replicate, length_replicate.
Qed.

(** C10.  For a model whose state list is set, [transition_matrix] returns
    a matrix with one row and one column per state; its entry for the
    states [src] and [dst] is the stored log2 probability when the
    transition map holds one for that pair, and [0] otherwise.  The call
    returns a matrix whatever the transition map lacks. *)
Theorem transition_matrix_entries {Seg} (self : @LeftRightModel.LeftRightModel Seg)
    (sts : list string) :
  LeftRightModel.states self = Some sts ->
  exists T,
    LeftRightModel.transition_matrix self = Some T /\
    square (length sts) T /\
    forall i j src dst,
      sts !! i = Some src -> sts !! j = Some dst ->
      entry T i j
      = Some (default 0%R
                (stored_transition (LeftRightModel._transitions self) src dst)).
Proof.
  intros Hsts. unfold LeftRightModel.transition_matrix. rewrite Hsts. simpl.
  eexists. split; [reflexivity|].
  destruct (fill_rows_spec (LeftRightModel._transitions self) (length sts) sts
              (replicate (length sts) (replicate (length sts) 0%R)) sts
              (square_zeros _)) as [Hsq He]; [lia|lia|].
  split; [exact Hsq|]. intros i j src dst Hi Hj.
  rewrite He, Hi. simpl. rewrite Hj. simpl.
  destruct (stored_transition _ src dst); [reflexivity|]. simpl.
  apply entry_zeros; eapply lookup_lt_Some; eassumption.
Qed.

Lemma transition_matrix_entries_witness :
  exists T,
    LeftRightModel.transition_matrix Ex.model = Some T /\
    square 2 T /\
    forall i j src dst,
      ["junk0"; "whisker0"]%string !! i = Some src ->
      ["junk0"; "whisker0"]%string !! j = Some dst ->
      entry T i j
      = Some (default 0%R
                (stored_transition (LeftRightModel._transitions Ex.model) src dst)).
Proof.
  exact (transition_matrix_entries Ex.model ["junk0"; "whisker0"]%string eq_refl).
Defined.

(** * Further properties of the estimator *)

(** ** The feature table *)

Lemma count_whiskers_from {Seg} (wvd : WVD Seg) (acc : nat) :
  fold_left (fun nrows '(fid, v) => (nrows + length v)%nat) wvd acc
  = (acc + length (iter_whiskers wvd))%nat.
Proof.
  revert acc. induction wvd as [|[fid v] wvd IH]; intros acc; simpl.
  - lia.
  - rewrite IH, length_app, length_map. lia.
Qed.

Lemma count_whiskers_length {Seg} (wvd : WVD Seg) :
  _count_whiskers wvd = length (iter_whiskers wvd).
Proof. unfold _count_whiskers. now rewrite count_whiskers_from. Qed.

Lemma all_features_table {Seg} (self : EmmissionDistributions Seg)
    (wvd : WVD Seg) (traj : Traj) :
  (forall fid wid w, (fid, wid, w) ∈ iter_whiskers wvd ->
     is_Some (_classifier self wvd traj fid wid)) ->
  exists tbl,
    _all_features self wvd traj = Some tbl /\
    length tbl = _count_whiskers wvd /\
    Forall2 (fun '(fid, wid, w) row =>
               _classifier self wvd traj fid wid = Some (row_class row) /\
               row_fid row = fid /\ row_wid row = wid /\
               row_fv row = feature self w /\
               length (row_fv row) = length (_features self))
            (iter_whiskers wvd) tbl.
Proof.
  intros Htotal. unfold _all_features. rewrite count_whiskers_length.
  induction (iter_whiskers wvd) as [|[[fid wid] w] l IH].
  - exists []. split_and!; [reflexivity|reflexivity|constructor].
  - destruct IH as (tbl & Htbl & Hlen & Hrows).
    { intros fid' wid' w' Hin. apply (Htotal fid' wid' w').
      now apply list_elem_of_further. }
    destruct (Htotal fid wid w) as [c Hc]; [apply list_elem_of_here|].
    exists (mkRow c fid wid (feature self w) :: tbl). split_and!.
    + cbn [mapM]. rewrite Hc. simpl. rewrite Htbl. reflexivity.
    + simpl. now rewrite Hlen.
    + constructor; [|exact Hrows]. simpl. split_and!; try done.
      unfold feature. apply length_map.
Qed.

(** X1.  When the classifier returns on every segment of [wvd],
    [_all_features] returns a table with exactly [_count_whiskers(wvd)]
    rows, the number the array is allocated with: one row per segment in
    iteration order, holding the classifier's output, the frame and
    segment ids, and the segment's feature vector, one entry per registered
    feature. *)
Theorem all_features_rows {Seg} (self : EmmissionDistributions Seg)
    (wvd : WVD Seg) (traj : Traj) :
  (forall fid wid w, (fid, wid, w) ∈ iter_whiskers wvd ->
     is_Some (_classifier self wvd traj fid wid)) ->
  exists tbl,
    _all_features self wvd traj = Some tbl /\
    length tbl = _count_whiskers wvd /\
    Forall2 (fun '(fid, wid, w) row =>
               _classifier self wvd traj fid wid = Some (row_class row) /\
               row_fid row = fid /\ row_wid row = wid /\
               row_fv row = feature self w /\
               length (row_fv row) = length (_features self))
            (iter_whiskers wvd) tbl.
Proof. apply all_features_table. Qed.

Lemma all_features_rows_witness :
  (forall fid wid w, (fid, wid, w) ∈ iter_whiskers Ex.wvd_0_63 ->
     is_Some (Ex.all_junk Ex.wvd_0_63 [] fid wid)) /\
  exists tbl,
    _all_features (blank Ex.features Ex.states Ex.all_junk) Ex.wvd_0_63 [] = Some tbl /\
    length tbl = 2%nat.
Proof.
  assert (Htotal : forall fid wid w, (fid, wid, w) ∈ iter_whiskers Ex.wvd_0_63 ->
            is_Some (Ex.all_junk Ex.wvd_0_63 [] fid wid))
    by (intros fid wid w _; now exists 0%Z).
  split; [exact Htotal|].
  destruct (all_features_rows (blank Ex.features Ex.states Ex.all_junk)
              Ex.wvd_0_63 [] Htotal) as (tbl & Htbl & Hlen & _).
  exists tbl. split; [exact Htbl|exact Hlen].
Defined.

(** ** Error behaviour of [estimate] *)

(** X2.  With at least one registered feature, [estimate] raises on an
    empty training set: a [wvd] without segments, or a supplied table
    without rows ([v.min()] of an empty column). *)
Theorem estimate_empty_raises {Seg} (self : EmmissionDistributions Seg)
    (wvd : WVD Seg) (traj : Traj) :
  (0 < length (_features self))%nat ->
  (_count_whiskers wvd = 0%nat -> estimate self wvd traj None = None) /\
  estimate self wvd traj (Some []) = None.
Proof.
  intros Hn.
  assert (Hloop : estimate_features [] self (seq 0 (length (_features self))) = None).
  { destruct (length (_features self)) as [|n]; [lia|]. reflexivity. }
  split.
  - intros Hcount. rewrite count_whiskers_length in Hcount.
    apply nil_length_inv in Hcount.
    unfold estimate, training_table, _all_features. rewrite Hcount. simpl.
    exact Hloop.
  - unfold estimate. simpl. exact Hloop.
Qed.

Lemma estimate_empty_raises_witness :
  estimate (blank Ex.features Ex.states Ex.all_junk) [] [] None = None /\
  estimate (blank Ex.features Ex.states Ex.all_junk) [] [] (Some []) = None.
Proof.
  destruct (estimate_empty_raises (blank Ex.features Ex.states Ex.all_junk) [] [])
    as [Hnone Hsome]; [simpl; lia|].
  split; [apply Hnone; reflexivity|exact Hsome].
Defined.

Lemma estimate_missing_key {Seg} (self : EmmissionDistributions Seg)
    (wvd : WVD Seg) (traj : Traj) (data : option (list Row)) (st : string) :
  (0 < length (_features self))%nat ->
  st ∈ _states self ->
  _distributions self !! st = None ->
  estimate self wvd traj data = None.
Proof.
  intros Hn Hst Hnone.
  destruct (estimate self wvd traj data) as [e|] eqn:Hest; [|reflexivity].
  exfalso. apply estimate_Some in Hest as (tbl & _ & Hrun).
  destruct (length (_features self)) as [|n]; [lia|]. simpl in Hrun.
  apply bind_Some in Hrun as (v & _ & Hrun).
  apply bind_Some in Hrun as (mn & _ & Hrun).
  apply bind_Some in Hrun as (mx & _ & Hrun).
  apply bind_Some in Hrun as (d & Happ & _). simpl in Happ.
  apply (append_histograms_is_Some _ _ _ _ _ _ st) in Happ as [hs Hhs];
    [congruence|now rewrite snd_enumerate].
Qed.

(** X5.  With at least one registered feature, [estimate] raises when a
    state of the object has no entry in [_distributions] (the [KeyError] of
    [self._distributions[state]]). *)
Theorem estimate_missing_state_raises {Seg} (self : EmmissionDistributions Seg)
    (wvd : WVD Seg) (traj : Traj) (data : option (list Row)) (st : string) :
  (0 < length (_features self))%nat ->
  st ∈ _states self ->
  _distributions self !! st = None ->
  estimate self wvd traj data = None.
Proof. apply estimate_missing_key. Qed.

Lemma estimate_missing_state_raises_witness :
  estimate Ex.ghost Ex.wvd_0_63 [] None = None.
Proof.
  apply (estimate_missing_state_raises Ex.ghost Ex.wvd_0_63 [] None "ghost"%string).
  - simpl. lia.
  - apply list_elem_of_here.
  - reflexivity.
Defined.

(** ** What [estimate] changes *)

Lemma append_histograms_dom {Seg : Type} (data : list Row) (v b : list Q)
    (d d' : gmap string (list (list R))) (ks : list (nat * string)) :
  append_histograms data v b d ks = Some d' -> dom d' = dom d.
Proof.
  revert d. induction ks as [|[k state] ks IH]; intros d Hrun.
  - simpl in Hrun. now injection Hrun as <-.
  - simpl in Hrun. apply bind_Some in Hrun as (hs & Hhs & Hrun).
    rewrite (IH _ Hrun). apply dom_insert_lookup_L. now exists hs.
Qed.

Lemma estimate_features_dom {Seg} (data : list Row)
    (self e : EmmissionDistributions Seg) (indices : list nat) :
  estimate_features data self indices = Some e ->
  dom (_distributions e) = dom (_distributions self).
Proof.
  revert self. induction indices as [|i rest IH]; intros self Hrun.
  - simpl in Hrun. now injection Hrun as <-.
  - simpl in Hrun.
    apply bind_Some in Hrun as (v & _ & Hrun).
    apply bind_Some in Hrun as (mn & _ & Hrun).
    apply bind_Some in Hrun as (mx & _ & Hrun).
    apply bind_Some in Hrun as (d & Happ & Hrun).
    rewrite (IH _ Hrun). simpl. simpl in Happ.
    exact (append_histograms_dom (Seg:=Seg) _ _ _ _ _ _ Happ).
Qed.

Lemma estimate_keeps_fields {Seg} (self e : EmmissionDistributions Seg)
    (wvd : WVD Seg) (traj : Traj) (data : option (list Row)) :
  estimate self wvd traj data = Some e ->
  _features e = _features self /\ _states e = _states self /\
  _classifier e = _classifier self /\
  length (_feature_bin_deltas e) = length (_feature_bin_deltas self) /\
  length (_feature_bin_mins e) = length (_feature_bin_mins self) /\
  dom (_distributions e) = dom (_distributions self).
Proof.
  intros Hest. apply estimate_Some in Hest as (tbl & _ & Hrun).
  destruct (estimate_features_fields _ _ _ _ Hrun) as (Hf & Hs & Hc & Hd & Hm).
  split_and!; try assumption. exact (estimate_features_dom _ _ _ _ Hrun).
Qed.

(** X3.  A call of [estimate] that returns changes only the bin arrays and
    the stored histograms: the feature functions, the state list and the
    classifier are those of the object before the call, the bin arrays keep
    their lengths, and [_distributions] keeps exactly its keys. *)
Theorem estimate_frame {Seg} (self e : EmmissionDistributions Seg)
    (wvd : WVD Seg) (traj : Traj) (data : option (list Row)) :
  estimate self wvd traj data = Some e ->
  _features e = _features self /\ _states e = _states self /\
  _classifier e = _classifier self /\
  length (_feature_bin_deltas e) = length (_feature_bin_deltas self) /\
  length (_feature_bin_mins e) = length (_feature_bin_mins self) /\
  dom (_distributions e) = dom (_distributions self).
Proof. apply estimate_keeps_fields. Qed.

Lemma estimate_frame_witness :
  exists e,
    estimate (blank Ex.features Ex.states Ex.all_junk) Ex.wvd_0_63 [] None = Some e /\
    _states e = Ex.states /\
    dom (_distributions e) = dom (_distributions (blank Ex.features Ex.states Ex.all_junk)).
Proof.
  destruct (estimate (blank Ex.features Ex.states Ex.all_junk) Ex.wvd_0_63 [] None)
    as [e|] eqn:He.
  - exists e. split; [reflexivity|].
    destruct (estimate_frame _ e Ex.wvd_0_63 [] None He) as (_ & Hs & _ & _ & _ & Hd).
    split; [exact Hs|exact Hd].
  - vm_compute in He. discriminate He.
Defined.

Lemma estimate_appends_histograms {Seg} (self e : EmmissionDistributions Seg)
    (wvd : WVD Seg) (traj : Traj) (data : option (list Row))
    (k : nat) (st : string) (old : list (list R)) :
  length (_feature_bin_deltas self) = length (_features self) ->
  length (_feature_bin_mins self) = length (_features self) ->
  NoDup (_states self) ->
  estimate self wvd traj data = Some e ->
  _states self !! k = Some st ->
  _distributions self !! st = Some old ->
  exists new,
    _distributions e !! st = Some (old ++ new) /\
    length new = length (_features self) /\
    Forall (fun h => length h = 63%nat /\ normalised h) new /\
    ((length (_features self) <= length old)%nat ->
     forall i, (i < length (_features self))%nat -> (old ++ new) !! i = old !! i).
Proof.
  intros Hld Hlm Hnd Hest Hk Hold.
  apply estimate_Some in Hest as (tbl & _ & Hrun).
  destruct (estimate_features_distributions _ _ _ _ _ _ _ Hnd Hrun Hk Hold)
    as (new & He & Hnew).
  exists new. split_and!.
  - exact He.
  - apply Forall2_length in Hnew. now rewrite length_seq in Hnew.
  - apply Forall_lookup. intros j h Hj.
    destruct (Forall2_lookup_r _ _ _ _ _ Hnew Hj) as (i & _ & Hh).
    unfold feature_histogram in Hh.
    apply bind_Some in Hh as (v & _ & Hh).
    apply bind_Some in Hh as (mn & _ & Hh).
    apply bind_Some in Hh as (mx & _ & Hh). injection Hh as <-. split.
    + rewrite length_log_histogram, length_linspace. reflexivity.
    + apply log_histogram_normalised. rewrite length_linspace. lia.
  - intros Hlen i Hi. apply lookup_app_l. lia.
Qed.

(** X4.  On an object with distinct state names whose bin arrays have one
    slot per feature, a call of [estimate] that returns appends one
    histogram per registered feature to what each state already holds and
    changes none of the histograms stored before.  When the state already
    holds a histogram for every feature, the entries [evaluate] reads
    (positions below the number of features) are the old ones. *)
Theorem estimate_appends {Seg} (self e : EmmissionDistributions Seg)
    (wvd : WVD Seg) (traj : Traj) (data : option (list Row))
    (k : nat) (st : string) (old : list (list R)) :
  length (_feature_bin_deltas self) = length (_features self) ->
  length (_feature_bin_mins self) = length (_features self) ->
  NoDup (_states self) ->
  estimate self wvd traj data = Some e ->
  _states self !! k = Some st ->
  _distributions self !! st = Some old ->
  exists new,
    _distributions e !! st = Some (old ++ new) /\
    length new = length (_features self) /\
    Forall (fun h => length h = 63%nat /\ normalised h) new /\
    ((length (_features self) <= length old)%nat ->
     forall i, (i < length (_features self))%nat -> (old ++ new) !! i = old !! i).
Proof. apply estimate_appends_histograms. Qed.

Lemma estimate_appends_witness :
  exists e1 e2 old new,
    estimate (blank Ex.features Ex.states Ex.all_junk) Ex.wvd_0_63 [] None = Some e1 /\
    estimate e1 Ex.wvd_0_0_63 [] None = Some e2 /\
    _distributions e1 !! "junk"%string = Some old /\
    _distributions e2 !! "junk"%string = Some (old ++ new) /\
    length old = 1%nat /\ length new = 1%nat.
Proof.
  destruct (estimate (blank Ex.features Ex.states Ex.all_junk) Ex.wvd_0_63 [] None)
    as [e1|] eqn:He1; [|vm_compute in He1; discriminate He1].
  destruct (estimate_keeps_fields _ e1 _ _ _ He1) as (Hf & Hs & _ & Hd & Hm & _).
  destruct (estimate_appends (blank Ex.features Ex.states Ex.all_junk)
              e1 Ex.wvd_0_63 [] None 0 "junk"%string []
              eq_refl eq_refl) as (old & Hold & Hlold & _);
    [refine (bool_decide_unpack _ _); vm_compute; exact I
    |exact He1|reflexivity|reflexivity|].
  simpl in Hold, Hlold.
  destruct (estimate e1 Ex.wvd_0_0_63 [] None) as [e2|] eqn:He2.
  - destruct (estimate_appends e1 e2 Ex.wvd_0_0_63 [] None 0 "junk"%string old)
      as (new & Hnew & Hlnew & _).
    + now rewrite Hd, Hf.
    + now rewrite Hm, Hf.
    + rewrite Hs. refine (bool_decide_unpack _ _). vm_compute. exact I.
    + exact He2.
    + now rewrite Hs.
    + exact Hold.
    + exists e1, e2, old, new. rewrite Hf in Hlnew. now split_and!.
  - exfalso.
    assert (Hchain : (e ← estimate (blank Ex.features Ex.states Ex.all_junk)
                           Ex.wvd_0_63 [] None;
                      estimate e Ex.wvd_0_0_63 [] None) <> None)
      by (vm_compute; discriminate).
    rewrite He1 in Hchain. exact (Hchain He2).
Defined.

(** ** When [evaluate] raises *)

Section Raises.
Context {Seg : Type}.
Implicit Types (self e : EmmissionDistributions Seg).

Lemma evaluate_raises_at self (seg : Seg) (st : string) (i : nat) (j : BinIndex) :
  _discritize self (feature self seg) !! i = Some j ->
  (forall hs h, _distributions self !! st = Some hs -> hs !! i = Some h ->
     match j with Bin z => getitem h z | NonFinite => None end = None) ->
  evaluate self seg st = None.
Proof.
  intros Hj Hnone. unfold evaluate.
  assert (Hmap : mapM (fun '(i, j) =>
              hs ← _distributions self !! st;
              h ← hs !! i;
              match j with Bin j0 => getitem h j0 | NonFinite => None end)
            (enumerate (_discritize self (feature self seg))) = None).
  { apply mapM_None_2, Exists_exists. exists (i, j). split.
    - now apply elem_of_enumerate.
    - destruct (_distributions self !! st) as [hs|] eqn:Hhs; [|reflexivity]. simpl.
      destruct (hs !! i) as [h|] eqn:Hh; [|reflexivity]. simpl.
      exact (Hnone hs h eq_refl Hh). }
  now rewrite Hmap.
Qed.

Lemma discritize_lookup self (fv : list Q) (i : nat) (val db bmin : Q) :
  fv !! i = Some val ->
  _feature_bin_deltas self !! i = Some db ->
  _feature_bin_mins self !! i = Some bmin ->
  _discritize self fv !! i
  = Some (if Qeq_bool db 0 then NonFinite else Bin (Qfloor ((val - bmin) / db))).
Proof.
  intros Hval Hdb Hbmin. unfold _discritize.
  rewrite list_lookup_fmap, !lookup_zip_with, Hval, Hdb, Hbmin. reflexivity.
Qed.

Lemma evaluate_zero_width self (seg : Seg) (st : string) (i : nat) (db : Q) :
  (i < length (_features self))%nat ->
  length (_feature_bin_mins self) = length (_features self) ->
  _feature_bin_deltas self !! i = Some db -> (db == 0)%Q ->
  evaluate self seg st = None.
Proof.
  intros Hi Hlm Hdb Hzero.
  destruct (lookup_lt_is_Some_2 (feature self seg) i) as [val Hval];
    [unfold feature; now rewrite length_map|].
  destruct (lookup_lt_is_Some_2 (_feature_bin_mins self) i) as [bmin Hbmin]; [lia|].
  apply (evaluate_raises_at self seg st i NonFinite); [|reflexivity].
  rewrite (discritize_lookup self _ i val db bmin Hval Hdb Hbmin).
  now rewrite (proj2 (Qeq_bool_iff db 0) Hzero).
Qed.

End Raises.

(** X6.  An estimator that was constructed without training data and has
    at least one registered feature cannot evaluate anything: [evaluate]
    raises for every segment and every state (no histogram is stored yet,
    and the bin widths are still zero). *)
Theorem evaluate_unfitted_raises {Seg} (f : Seg -> Q) (fs : list (Seg -> Q))
    (states : list string) (classifier : Classifier Seg) (seg : Seg) (st : string) :
  evaluate (blank (f :: fs) states classifier) seg st = None.
Proof.
  apply (evaluate_zero_width _ seg st 0 0%Q).
  - simpl. lia.
  - simpl. now rewrite length_replicate.
  - reflexivity.
  - reflexivity.
Qed.

(** X7.  A call of [estimate] that returns fits a feature whose training
    values are all equal (minimum equal to maximum) with bin width zero,
    and from then on [evaluate] raises for every segment and every
    state. *)
Theorem estimate_degenerate_feature {Seg} (self e : EmmissionDistributions Seg)
    (wvd : WVD Seg) (traj : Traj) (data : option (list Row))
    (tbl : list Row) (i : nat) (v : list Q) (mn mx : Q) :
  length (_feature_bin_deltas self) = length (_features self) ->
  length (_feature_bin_mins self) = length (_features self) ->
  estimate self wvd traj data = Some e ->
  training_table self wvd traj data = Some tbl ->
  (i < length (_features self))%nat ->
  column tbl i = Some v -> Numpy.amin v = Some mn -> Numpy.amax v = Some mx ->
  (mn == mx)%Q ->
  (exists dlt, _feature_bin_deltas e !! i = Some dlt /\ (dlt == 0)%Q) /\
  forall seg st, evaluate e seg st = None.
Proof.
  intros Hld Hlm Hest Htbl Hi Hv Hmn Hmx Heq.
  destruct (estimate_keeps_fields _ _ _ _ _ Hest) as (Hf & _ & _ & Hld' & Hlm' & _).
  destruct (estimate_feature_summary _ _ _ _ _ Hld Hlm Hest) as (tbl' & Htbl' & Hsum).
  assert (tbl' = tbl) as -> by congruence.
  destruct (Hsum i Hi) as (v' & mn' & mx' & Hv' & Hmn' & Hmx' & Hd & _).
  assert (v' = v) as -> by congruence.
  assert (mn' = mn) as -> by congruence.
  assert (mx' = mx) as -> by congruence.
  assert (Hzero : (edge mn mx 1 - edge mn mx 0 == 0)%Q).
  { rewrite edge_step, Heq. unfold Qdiv. ring. }
  split; [eexists; split; [exact Hd|exact Hzero]|].
  intros seg st.
  apply (evaluate_zero_width e seg st i (edge mn mx 1 - edge mn mx 0)%Q);
    try assumption.
  - now rewrite Hf.
  - now rewrite Hlm', Hf.
Qed.

Lemma estimate_degenerate_feature_witness :
  exists e,
    estimate (blank Ex.features Ex.states Ex.all_junk) Ex.wvd_5_5 [] None = Some e /\
    (exists dlt, _feature_bin_deltas e !! 0%nat = Some dlt /\ (dlt == 0)%Q) /\
    forall seg st, evaluate e seg st = None.
Proof.
  destruct (estimate (blank Ex.features Ex.states Ex.all_junk) Ex.wvd_5_5 [] None)
    as [e|] eqn:He; [|vm_compute in He; discriminate He].
  exists e. split; [reflexivity|].
  apply (estimate_degenerate_feature (blank Ex.features Ex.states Ex.all_junk) e
           Ex.wvd_5_5 [] None
           [mkRow 0 0 0 [5%Q]; mkRow 0 0 1 [5%Q]] 0 [5%Q; 5%Q] 5%Q 5%Q);
    try reflexivity; [exact He|simpl; lia].
Defined.

(** * Further properties of the classifiers *)

(** ** The binary classifier in general *)

Lemma elem_of_frames_from (traj : Traj) (acc : gset Z) (fid : Z) :
  fid ∈ fold_left (fun (acc : gset Z) '(tid, v) => acc ∪ list_to_set (map fst v))
                  traj acc
  <-> fid ∈ acc \/ exists tid v wid, (tid, v) ∈ traj /\ (fid, wid) ∈ v.
Proof.
  revert acc. induction traj as [|[tid v] traj IH]; intros acc; simpl.
  - split; [auto|]. intros [H|(tid & v & wid & H & _)]; [exact H|].
    now apply elem_of_nil in H.
  - rewrite IH, elem_of_union, elem_of_list_to_set. split.
    + intros [[H|H]|(tid' & v' & wid & Hin & Hv)].
      * now left.
      * right. apply list_elem_of_fmap in H as ([fid' wid] & -> & H).
        exists tid, v, wid. split; [apply list_elem_of_here|exact H].
      * right. exists tid', v', wid. split; [now apply list_elem_of_further|exact Hv].
    + intros [H|(tid' & v' & wid & Hin & Hv)]; [now left; left|].
      apply elem_of_cons in Hin as [E|Hin].
      * injection E as -> ->. left. right. apply list_elem_of_fmap.
        now exists (fid, wid).
      * right. now exists tid', v', wid.
Qed.

Lemma elem_of_frames (traj : Traj) (fid : Z) :
  fid ∈ EDTwoState.frames traj
  <-> exists tid v wid, (tid, v) ∈ traj /\ (fid, wid) ∈ v.
Proof.
  unfold EDTwoState.frames. rewrite elem_of_frames_from. split; [|auto].
  intros [H|H]; [now apply elem_of_empty in H|exact H].
Qed.

Lemma elem_of_labelled (traj : Traj) (fid wid : Z) :
  (fid, wid) ∈ EDTwoState.labelled traj
  <-> exists tid v, (tid, v) ∈ traj /\ (fid, wid) ∈ v.
Proof.
  unfold EDTwoState.labelled, EDTwoState._itertraj.
  rewrite elem_of_list_to_set, list_elem_of_In, in_flat_map. split.
  - intros ([tid v] & Hin & Hv). exists tid, v.
    now rewrite !list_elem_of_In.
  - intros (tid & v & Hin & Hv). exists (tid, v).
    now rewrite <- !list_elem_of_In.
Qed.

(** X10.  The binary classifier always returns, and returns -1, 0 or 1.
    Called as [classifier(wvd, traj, a, b)] it returns -1 exactly when its
    fourth argument [b] is not the frame id of any labelled frame, and 1
    exactly when [(a, b)] is a labelled (frame, segment) pair and [b] is
    also the frame id of some labelled frame; the tables passed as first
    and second argument are not consulted. *)
Theorem two_state_classifier_values {Seg} (traj : Traj) (wvd : WVD Seg)
    (traj' : Traj) (a b : Z) :
  exists c,
    EDTwoState._make_classifer traj wvd traj' a b = Some c /\
    (c = (-1)%Z \/ c = 0%Z \/ c = 1%Z) /\
    (c = (-1)%Z <-> ~ exists tid v wid, (tid, v) ∈ traj /\ (b, wid) ∈ v) /\
    (c = 1%Z <->
     (exists tid v, (tid, v) ∈ traj /\ (a, b) ∈ v) /\
     (exists tid v wid, (tid, v) ∈ traj /\ (b, wid) ∈ v)).
Proof.
  unfold EDTwoState._make_classifer. eexists. split; [reflexivity|].
  rewrite <- elem_of_frames, <- elem_of_labelled.
  destruct (decide (b ∈ EDTwoState.frames traj)) as [Hb|Hb].
  - destruct (bool_decide ((a, b) ∈ EDTwoState.labelled traj)) eqn:Hl; simpl.
    + apply bool_decide_eq_true in Hl. split_and!; [auto| |]; split; try done.
    + apply bool_decide_eq_false in Hl. split_and!; [auto| |]; split; try done.
      intros [? _]. contradiction.
  - split_and!; [auto| |]; split; try done. intros [_ ?]. contradiction.
Qed.

(** ** [iterstates] *)

Lemma start_not_name (i : nat) :
  "start"%string <> junk_name i /\ "start"%string <> whisker_name i /\
  "end"%string <> junk_name i /\ "end"%string <> whisker_name i.
Proof. unfold junk_name, whisker_name. simpl. split_and!; discriminate. Qed.

Lemma elem_of_state_pairs (a n : nat) (x : string) :
  x ∈ flat_map (fun i : nat => [junk_name i; whisker_name i]) (seq a n)
  -> exists i, (a <= i < a + n)%nat /\ (x = junk_name i \/ x = whisker_name i).
Proof.
  rewrite list_elem_of_In, in_flat_map. intros (i & Hi & Hx).
  apply in_seq in Hi. exists i. split; [lia|].
  simpl in Hx. destruct Hx as [<-|[<-|[]]]; auto.
Qed.

Lemma NoDup_state_pairs (a n : nat) :
  NoDup (flat_map (fun i : nat => [junk_name i; whisker_name i]) (seq a n)).
Proof.
  revert a. induction n as [|n IH]; intros a; simpl; [constructor|].
  constructor; [|constructor; [|apply IH]].
  - intros Hin. apply elem_of_cons in Hin as [E|Hin].
    + symmetry in E. now apply whisker_name_ne_junk_name in E.
    + apply elem_of_state_pairs in Hin as (i & Hi & [E|E]).
      * apply junk_name_inj in E. lia.
      * symmetry in E. now apply whisker_name_ne_junk_name in E.
  - intros Hin. apply elem_of_state_pairs in Hin as (i & Hi & [E|E]).
    + now apply whisker_name_ne_junk_name in E.
    + apply whisker_name_inj in E. lia.
Qed.

Lemma length_state_pairs (a n : nat) :
  length (flat_map (fun i : nat => [junk_name i; whisker_name i]) (seq a n))
  = (2 * n)%nat.
Proof.
  revert a. induction n as [|n IH]; intros a; simpl; [reflexivity|].
  rewrite IH. lia.
Qed.

(** X13.  [iterstates(n)] yields [2 * n + 2] pairwise distinct names:
    "start" first, "end" last, and between them "junk<i>" and "whisker<i>"
    for every [i < n]. *)
Theorem iterstates_names (n : nat) :
  length (iterstates n) = (2 * n + 2)%nat /\
  NoDup (iterstates n) /\
  head (iterstates n) = Some "start"%string /\
  last (iterstates n) = Some "end"%string /\
  forall i, (i < n)%nat -> junk_name i ∈ iterstates n /\ whisker_name i ∈ iterstates n.
Proof.
  unfold iterstates.
  set (body := flat_map (fun i : nat => [junk_name i; whisker_name i]) (seq 0 n)).
  assert (Hlen : length body = (2 * n)%nat) by apply length_state_pairs.
  split_and!.
  - simpl. rewrite length_app, Hlen. simpl. lia.
  - simpl. constructor.
    + intros Hin. apply elem_of_app in Hin as [Hin|Hin].
      * apply elem_of_state_pairs in Hin as (i & _ & [E|E]);
          now apply (start_not_name i) in E.
      * apply list_elem_of_singleton in Hin. discriminate Hin.
    + apply NoDup_app. split_and!.
      * apply NoDup_state_pairs.
      * intros x Hx Hend. apply list_elem_of_singleton in Hend as ->.
        apply elem_of_state_pairs in Hx as (i & _ & [E|E]);
          now apply (start_not_name i) in E.
      * apply NoDup_singleton.
  - reflexivity.
  - simpl. now rewrite last_cons, last_snoc.
  - intros i Hi. assert (Hseq : In i (seq 0 n)) by (apply in_seq; lia).
    split; apply list_elem_of_further, elem_of_app; left;
      apply list_elem_of_In, in_flat_map; exists i; (split; [exact Hseq|]); simpl; auto.
Qed.

(** ** The ordinal classifier in general *)

Section Ordinal.
Context {Seg : Type}.

Lemma insert_by_perm {A} (c : A -> A -> comparison) (x : A) (l : list A) :
  EDMultiState.insert_by c x l ≡ₚ x :: l.
Proof.
  induction l as [|y l IH]; simpl; [reflexivity|].
  destruct (c x y); try reflexivity.
  rewrite IH. apply Permutation_swap.
Qed.

Lemma sorted_perm {A} (c : A -> A -> comparison) (l : list A) :
  EDMultiState.sorted c l ≡ₚ l.
Proof.
  unfold EDMultiState.sorted. induction l as [|x l IH]; simpl; [reflexivity|].
  now rewrite insert_by_perm, IH.
Qed.

Lemma trajectory_members_perm (labelled : gset (Z * Z)) (fid : Z)
    (l1 l2 : list (Z * Seg)) :
  l1 ≡ₚ l2 -> trajectory_members labelled fid l1 = trajectory_members labelled fid l2.
Proof.
  unfold trajectory_members. induction 1 as [|x l l' _ IH|x y l|l l' l'' _ IH1 _ IH2];
    simpl.
  - reflexivity.
  - destruct (bool_decide _); simpl; now rewrite IH.
  - now repeat destruct (bool_decide _).
  - now rewrite IH1.
Qed.

Lemma label_frame_count (labelled : gset (Z * Z)) (fid : Z) (items : list (Z * Seg))
    (t : nat) cm (st : gset string) :
  (EDMultiState.label_frame labelled fid items t cm st).1.1
  = (t + trajectory_members labelled fid items)%nat.
Proof.
  unfold trajectory_members.
  revert t cm st. induction items as [|[wid w] rest IH]; intros t cm st; simpl.
  - lia.
  - destruct (decide ((fid, wid) ∈ labelled)) as [Hl|Hl].
    + rewrite IH, bool_decide_eq_true_2 by exact Hl. simpl. lia.
    + rewrite IH, bool_decide_eq_false_2 by exact Hl. reflexivity.
Qed.

Lemma label_frames_nsteps (y0 : Seg -> Q) (labelled : gset (Z * Z)) (wvd : WVD Seg)
    (b : EDMultiState.Built) :
  EDMultiState._nsteps (EDMultiState.label_frames y0 labelled wvd b)
  = Nat.max (EDMultiState._nsteps b)
            (max_list (map (fun '(fid, wv) => trajectory_members labelled fid wv) wvd)).
Proof.
  revert b. induction wvd as [|[fid wv] rest IH]; intros b; simpl; [lia|].
  pose proof (label_frame_count labelled fid
                (EDMultiState.sorted (fun a b0 => EDMultiState.wcmp y0 a.2 b0.2) wv)
                0 (EDMultiState.classmap b) (EDMultiState.states b)) as Hcount.
  destruct (EDMultiState.label_frame labelled fid _ 0 _ _) as [[t cm] st].
  simpl in Hcount. rewrite IH. simpl.
  rewrite Hcount, (trajectory_members_perm _ _ _ wv) by apply sorted_perm. lia.
Qed.

End Ordinal.

(** X11.  The step count [_nsteps] that [_make_classifer] discovers is the
    largest number of trajectory members found in one frame (0 for an empty
    training set); it does not depend on the ordering key. *)
Theorem multi_state_nsteps {Seg} (y0 : Seg -> Q) (wvd : WVD Seg) (traj : Traj) :
  EDMultiState._nsteps (EDMultiState.build y0 wvd traj)
  = max_list (map (fun '(fid, wv) =>
                     trajectory_members (EDTwoState.labelled traj) fid wv) wvd).
Proof. unfold EDMultiState.build. now rewrite label_frames_nsteps. Qed.

Section OrdinalClassifier.
Context {Seg : Type}.

Lemma label_frame_classmap (labelled : gset (Z * Z)) (fid : Z)
    (items : list (Z * Seg)) (t : nat) (cm : gmap (Z * Z) string)
    (st : gset string) t' cm' st' :
  EDMultiState.label_frame labelled fid items t cm st = (t', cm', st') ->
  (forall key name, cm !! key = Some name -> name ∈ st) ->
  (forall key name, cm' !! key = Some name -> name ∈ st') /\
  (forall key, is_Some (cm' !! key) <->
     is_Some (cm !! key) \/ exists wid w, key = (fid, wid) /\ (wid, w) ∈ items).
Proof.
  revert t cm st. induction items as [|[wid w] rest IH]; intros t cm st Hrun Hcov.
  - simpl in Hrun. injection Hrun as <- <- <-. split; [exact Hcov|].
    intros key. split; [auto|]. intros [H|(wid & w & _ & H)]; [exact H|].
    now apply elem_of_nil in H.
  - simpl in Hrun.
    assert (Hstep : forall name t1,
      EDMultiState.label_frame labelled fid rest t1
        (<[(fid, wid) := name]> cm) ({[name]} ∪ st) = (t', cm', st') ->
      (forall key name0, cm' !! key = Some name0 -> name0 ∈ st') /\
      (forall key, is_Some (cm' !! key) <->
         is_Some (cm !! key) \/
         exists wid0 w0, key = (fid, wid0) /\ (wid0, w0) ∈ (wid, w) :: rest)).
    { intros name t1 Hrun1. destruct (IH _ _ _ Hrun1) as [Hcov' Hkeys].
      - intros key name0 Hl. destruct (decide ((fid, wid) = key)) as [<-|Hne].
        + rewrite lookup_insert_eq in Hl. injection Hl as <-.
          apply elem_of_union_l, elem_of_singleton. reflexivity.
        + rewrite lookup_insert_ne in Hl by exact Hne.
          apply elem_of_union_r. exact (Hcov _ _ Hl).
      - split; [exact Hcov'|]. intros key. rewrite Hkeys, lookup_insert_is_Some.
        split.
        + intros [[<-|[_ H]]|(wid0 & w0 & -> & H)].
          * right. exists wid, w. split; [reflexivity|apply list_elem_of_here].
          * now left.
          * right. exists wid0, w0. split; [reflexivity|now apply list_elem_of_further].
        + intros [H|(wid0 & w0 & -> & H)].
          * destruct (decide ((fid, wid) = key)); [left; now left|left; now right].
          * apply elem_of_cons in H as [E|H].
            -- injection E as -> ->. left. now left.
            -- right. now exists wid0, w0. }
    destruct (decide ((fid, wid) ∈ labelled)); eapply Hstep, Hrun.
Qed.

Lemma label_frames_classmap (y0 : Seg -> Q) (labelled : gset (Z * Z)) (wvd : WVD Seg)
    (b : EDMultiState.Built) :
  (forall key name, EDMultiState.classmap b !! key = Some name ->
     name ∈ EDMultiState.states b) ->
  let b' := EDMultiState.label_frames y0 labelled wvd b in
  (forall key name, EDMultiState.classmap b' !! key = Some name ->
     name ∈ EDMultiState.states b') /\
  (forall key, is_Some (EDMultiState.classmap b' !! key) <->
     is_Some (EDMultiState.classmap b !! key) \/
     exists wv w, (key.1, wv) ∈ wvd /\ (key.2, w) ∈ wv).
Proof.
  revert b. induction wvd as [|[fid wv] rest IH]; intros b Hcov; simpl.
  - split; [exact Hcov|]. intros key. split; [auto|].
    intros [H|(wv & w & H & _)]; [exact H|]. now apply elem_of_nil in H.
  - destruct (EDMultiState.label_frame labelled fid
                (EDMultiState.sorted (fun a b0 => EDMultiState.wcmp y0 a.2 b0.2) wv)
                0 (EDMultiState.classmap b) (EDMultiState.states b))
      as [[t cm] st] eqn:Hframe.
    destruct (label_frame_classmap _ _ _ _ _ _ _ _ _ Hframe Hcov) as [Hcov1 Hkeys1].
    destruct (IH (EDMultiState.mkBuilt (Nat.max (EDMultiState._nsteps b) t) cm st) Hcov1)
      as [Hcov' Hkeys']. simpl in Hkeys'.
    split; [exact Hcov'|]. intros key. rewrite Hkeys', Hkeys1. split.
    + intros [[H|(wid & w & -> & H)]|(wv' & w & Hin & Hw)].
      * now left.
      * right. exists wv, w. split; [apply list_elem_of_here|].
        simpl. now rewrite sorted_perm in H.
      * right. exists wv', w. split; [now apply list_elem_of_further|exact Hw].
    + intros [H|(wv' & w & Hin & Hw)]; [now left; left|].
      apply elem_of_cons in Hin as [E|Hin].
      * injection E as E1 ->. left. right. exists key.2, w.
        split; [destruct key; simpl in *; congruence|].
        now rewrite sorted_perm.
      * right. now exists wv', w.
Qed.

Lemma statemap_lookup (b : EDMultiState.Built) (name : string) :
  name ∈ EDMultiState.states b ->
  exists i, EDMultiState.statemap b !! name = Some i /\
            EDMultiState._states b !! i = Some name.
Proof.
  intros Hin. apply elem_of_elements, list_elem_of_lookup_1 in Hin as [i Hi].
  exists i. split; [|exact Hi].
  unfold EDMultiState.statemap. apply elem_of_list_to_map_1.
  - replace ((map (fun '(i0, n) => (n, i0))
                  (enumerate (EDMultiState._states b))).*1)
      with (EDMultiState._states b);
      [unfold EDMultiState._states; apply NoDup_elements|].
    apply list_eq. intros j. unfold enumerate.
    rewrite !list_lookup_fmap, list_lookup_imap.
    now destruct (EDMultiState._states b !! j).
  - apply list_elem_of_fmap. exists (i, name). split; [reflexivity|].
    now apply elem_of_enumerate.
Qed.

End OrdinalClassifier.

Lemma multi_state_classifier_total {Seg} (y0 : Seg -> Q) (wvd wvd' : WVD Seg)
    (traj traj' : Traj) (fid wid : Z) :
  let b := EDMultiState.build y0 wvd traj in
  ((exists wv w, (fid, wv) ∈ wvd /\ (wid, w) ∈ wv) ->
   exists c,
     EDMultiState._make_classifer y0 wvd traj wvd' traj' fid wid = Some c /\
     (fid ∉ EDTwoState.frames traj -> c = (-1)%Z) /\
     (fid ∈ EDTwoState.frames traj ->
      exists i name t,
        c = Z.of_nat i /\ EDMultiState._states b !! i = Some name /\
        EDMultiState.classmap b !! (fid, wid) = Some name /\
        (name = whisker_name t \/ name = junk_name t))) /\
  (~ (exists wv w, (fid, wv) ∈ wvd /\ (wid, w) ∈ wv) ->
   fid ∈ EDTwoState.frames traj ->
   EDMultiState._make_classifer y0 wvd traj wvd' traj' fid wid = None).
Proof.
  intros b.
  destruct (label_frames_classmap y0 (EDTwoState.labelled traj) wvd
              (EDMultiState.mkBuilt 0 ∅ ∅)) as [Hcov Hkeys].
  { intros key name H. simpl in H. now rewrite lookup_empty in H. }
  fold (EDMultiState.build y0 wvd traj) in Hcov, Hkeys. fold b in Hcov, Hkeys.
  unfold EDMultiState._make_classifer. fold b. split.
  - intros Hseg. destruct (decide (fid ∈ EDTwoState.frames traj)) as [Hf|Hf].
    + destruct (proj2 (Hkeys (fid, wid))) as [name Hname]; [right; exact Hseg|].
      destruct (statemap_lookup b name (Hcov _ _ Hname)) as (i & Hi & Hst).
      exists (Z.of_nat i). rewrite Hname. simpl. rewrite Hi. simpl.
      split; [reflexivity|]. split; [contradiction|]. intros _.
      destruct (build_names y0 wvd traj) as [_ Hn]. fold b in Hn.
      destruct (Hn name (Hcov _ _ Hname)) as [(t & _ & E)|(t & _ & E)];
        exists i, name, t; auto.
    + exists (-1)%Z. split; [reflexivity|]. split; [reflexivity|contradiction].
  - intros Hno Hf. rewrite decide_True by exact Hf.
    destruct (EDMultiState.classmap b !! (fid, wid)) as [name|] eqn:Hname;
      [|reflexivity].
    exfalso. apply Hno. destruct (proj1 (Hkeys (fid, wid))) as [H|H]; [eauto| |exact H].
    simpl in H. rewrite lookup_empty in H. now destruct H.
Qed.

(** X12.  On the training set it was built from, the ordinal classifier
    never raises: for every segment of [wvd] it returns -1 when the frame
    is not a labelled frame, and otherwise the position in [_states] of the
    name recorded for the segment, which is a "whisker<t>" or a "junk<t>".
    For a frame that is labelled and a pair that is no segment of [wvd] it
    raises ([KeyError]). *)
Theorem multi_state_classifier_valid {Seg} (y0 : Seg -> Q) (wvd wvd' : WVD Seg)
    (traj traj' : Traj) (fid wid : Z) :
  let b := EDMultiState.build y0 wvd traj in
  ((exists wv w, (fid, wv) ∈ wvd /\ (wid, w) ∈ wv) ->
   exists c,
     EDMultiState._make_classifer y0 wvd traj wvd' traj' fid wid = Some c /\
     (fid ∉ EDTwoState.frames traj -> c = (-1)%Z) /\
     (fid ∈ EDTwoState.frames traj ->
      exists i name t,
        c = Z.of_nat i /\ EDMultiState._states b !! i = Some name /\
        EDMultiState.classmap b !! (fid, wid) = Some name /\
        (name = whisker_name t \/ name = junk_name t))) /\
  (~ (exists wv w, (fid, wv) ∈ wvd /\ (wid, w) ∈ wv) ->
   fid ∈ EDTwoState.frames traj ->
   EDMultiState._make_classifer y0 wvd traj wvd' traj' fid wid = None).
Proof. apply multi_state_classifier_total. Qed.

Lemma multi_state_classifier_valid_witness :
  exists c,
    EDMultiState._make_classifer (fun seg : Q => seg) Ex.wvd_three Ex.traj_middle
                                 Ex.wvd_three Ex.traj_middle 0%Z 1%Z = Some c /\
    (0 <= c)%Z /\
    EDMultiState._make_classifer (fun seg : Q => seg) Ex.wvd_three Ex.traj_middle
                                 Ex.wvd_three Ex.traj_middle 0%Z 9%Z = None.
Proof.
  destruct (multi_state_classifier_valid (fun seg : Q => seg) Ex.wvd_three
              Ex.wvd_three Ex.traj_middle Ex.traj_middle 0%Z 1%Z) as [Hin _].
  destruct (multi_state_classifier_valid (fun seg : Q => seg) Ex.wvd_three
              Ex.wvd_three Ex.traj_middle Ex.traj_middle 0%Z 9%Z) as [_ Hout].
  assert (Hframe : 0%Z ∈ EDTwoState.frames Ex.traj_middle)
    by (refine (bool_decide_unpack _ _); vm_compute; exact I).
  destruct Hin as (c & Hc & _ & Hidx).
  { exists [(0%Z, 1%Q); (1%Z, 2%Q); (2%Z, 3%Q)], 2%Q.
    split; [apply list_elem_of_here|]. apply list_elem_of_further, list_elem_of_here. }
  destruct (Hidx Hframe) as (i & name & t & -> & _).
  exists (Z.of_nat i). split; [exact Hc|]. split; [lia|].
  apply Hout; [|exact Hframe].
  intros (wv & w & Hwv & Hw). unfold Ex.wvd_three in Hwv.
  apply list_elem_of_singleton in Hwv. injection Hwv as Hwv. subst wv.
  repeat (apply elem_of_cons in Hw as [Hw|Hw]; [discriminate Hw|]).
  now apply elem_of_nil in Hw.
Defined.

(** * Further properties of time-independent training *)

Section TimeIndependent.
Context {Seg : Type}.

Lemma count_frames_all_skipped (classify : Z -> Z -> option Z) (wids frames : list Z)
    (acc : list Z * list (list Z) * list Z) (wid0 : Z) :
  head wids = Some wid0 ->
  (forall fid, classify fid wid0 = Some (-1)%Z) ->
  LeftRightModel.count_frames classify wids frames acc = Some acc.
Proof.
  intros Hhead Hskip. induction frames as [|fid rest IH]; [reflexivity|].
  destruct acc as [[cS cT] cE]. cbn [LeftRightModel.count_frames].
  rewrite Hhead. simpl. rewrite Hskip. simpl. exact IH.
Qed.

End TimeIndependent.

(** X14.  [train_time_independent] decides whether a frame has ground
    truth by classifying [wvd.keys()[0]], the first frame id of the
    training set, whatever the frame it is looking at.  So when the
    training set is empty, or its first frame id is not the frame id of a
    labelled frame, every frame is skipped and the start vector, the end
    vector and both rows of the transition matrix are NaN. *)
Theorem train_time_independent_first_key {Seg} (wvd : WVD Seg) (traj : Traj) :
  (forall fid0, head (map fst wvd) = Some fid0 -> fid0 ∉ EDTwoState.frames traj) ->
  LeftRightModel.train_time_independent wvd traj
  = Some ([NaN; NaN], [[NaN; NaN]; [NaN; NaN]], [NaN; NaN]).
Proof.
  intros Hfirst. unfold LeftRightModel.train_time_independent.
  assert (Hcount :
    LeftRightModel.count_frames
      (EDTwoState._make_classifer traj wvd traj) (map fst wvd) (map fst wvd)
      ([0; 0]%Z, [[0; 0]; [0; 0]]%Z, [0; 0]%Z)
    = Some ([0; 0]%Z, [[0; 0]; [0; 0]]%Z, [0; 0]%Z)).
  { destruct (head (map fst wvd)) as [fid0|] eqn:Hhead.
    - apply (count_frames_all_skipped _ _ _ _ fid0 Hhead).
      intros fid. unfold EDTwoState._make_classifer.
      now rewrite decide_False by (apply Hfirst; reflexivity).
    - destruct (map fst wvd); [reflexivity|discriminate Hhead]. }
  rewrite Hcount. reflexivity.
Qed.

Lemma train_time_independent_first_key_witness :
  LeftRightModel.train_time_independent
    ([(1%Z, [(0%Z, 0%Q)]); (5%Z, [(7%Z, 0%Q)])] : WVD Q) Ex.traj_5_7
  = Some ([NaN; NaN], [[NaN; NaN]; [NaN; NaN]], [NaN; NaN]).
Proof.
  apply (train_time_independent_first_key
           ([(1%Z, [(0%Z, 0%Q)]); (5%Z, [(7%Z, 0%Q)])] : WVD Q) Ex.traj_5_7).
  intros fid0 [= <-]. refine (bool_decide_unpack _ _). vm_compute. exact I.
Defined.

(** ** The counts of [train_time_independent] *)

Lemma incr_pair (a b j : Z) :
  class_value j ->
  exists a' b',
    LeftRightModel.incr [a; b] j = Some [a'; b'] /\
    (a <= a')%Z /\ (b <= b')%Z /\ (a' + b' = a + b + 1)%Z.
Proof.
  intros [->|[->| ->]]; eexists _, _; (split; [reflexivity|]); cbn; lia.
Qed.

Lemma incr2_square (a b c d j k : Z) :
  class_value j -> class_value k ->
  exists a' b' c' d',
    LeftRightModel.incr2 [[a; b]; [c; d]] j k = Some [[a'; b']; [c'; d']] /\
    (a' + b' + c' + d' = a + b + c + d + 1)%Z.
Proof.
  intros [->|[->| ->]] [->|[->| ->]]; eexists _, _, _, _;
    (split; [reflexivity|]); cbn; lia.
Qed.

Lemma count_transitions_total (classify : Z -> Z -> option Z) (fid : Z)
    (wids : list Z) (a b c d prev : Z) :
  (forall wid, exists x, classify fid wid = Some x /\ class_value x) ->
  class_value prev ->
  exists a' b' c' d' last,
    LeftRightModel.count_transitions classify fid wids [[a; b]; [c; d]] prev
    = Some ([[a'; b']; [c'; d']], last) /\
    class_value last /\
    (a' + b' + c' + d' = a + b + c + d + Z.of_nat (length wids))%Z.
Proof.
  intros Hcl. revert a b c d prev.
  induction wids as [|wid rest IH]; intros a b c d prev Hprev.
  - exists a, b, c, d, prev. split_and!; [reflexivity|exact Hprev|simpl; lia].
  - destruct (Hcl wid) as (next & Hnext & Hv).
    destruct (incr2_square a b c d prev next Hprev Hv)
      as (a1 & b1 & c1 & d1 & Hincr & Hsum).
    destruct (IH a1 b1 c1 d1 next Hv) as (a' & b' & c' & d' & last & Hrun & Hl & Hs).
    exists a', b', c', d', last. split_and!; [|exact Hl|].
    + cbn [LeftRightModel.count_transitions]. rewrite Hnext. simpl.
      rewrite Hincr. simpl. exact Hrun.
    + rewrite Hs, Hsum. simpl length. lia.
Qed.

Lemma count_frames_total (classify : Z -> Z -> option Z) (wids frames : list Z)
    (wid0 : Z) (s1 s2 a b c d e1 e2 : Z) :
  head wids = Some wid0 ->
  (forall fid wid, exists x, classify fid wid = Some x /\ class_value x) ->
  (forall fid, classify fid wid0 <> Some (-1)%Z) ->
  (0 <= s1)%Z -> (0 <= s2)%Z -> (0 <= e1)%Z -> (0 <= e2)%Z ->
  exists s1' s2' a' b' c' d' e1' e2',
    LeftRightModel.count_frames classify wids frames
      ([s1; s2], [[a; b]; [c; d]], [e1; e2])
    = Some ([s1'; s2'], [[a'; b']; [c'; d']], [e1'; e2']) /\
    (0 <= s1')%Z /\ (0 <= s2')%Z /\ (0 <= e1')%Z /\ (0 <= e2')%Z /\
    (s1' + s2' = s1 + s2 + Z.of_nat (length frames))%Z /\
    (e1' + e2' = e1 + e2 + Z.of_nat (length frames))%Z /\
    (a' + b' + c' + d'
     = a + b + c + d + Z.of_nat (length frames) * Z.of_nat (length (tail wids)))%Z.
Proof.
  intros Hhead Hcl Hcounted. revert s1 s2 a b c d e1 e2.
  induction frames as [|fid rest IH]; intros s1 s2 a b c d e1 e2 Hs1 Hs2 He1 He2.
  - exists s1, s2, a, b, c, d, e1, e2. split_and!; try assumption;
      [reflexivity|simpl; lia..].
  - destruct (Hcl fid wid0) as (prev & Hprev & Hv).
    assert (Hne : prev <> (-1)%Z) by (intros ->; exact (Hcounted fid Hprev)).
    destruct (incr_pair s1 s2 prev Hv) as (s1a & s2a & HS & ? & ? & HSsum).
    destruct (count_transitions_total classify fid (tail wids) a b c d prev
                (Hcl fid) Hv) as (a1 & b1 & c1 & d1 & last & HT & Hlast & HTsum).
    destruct (incr_pair e1 e2 last Hlast) as (e1a & e2a & HE & ? & ? & HEsum).
    destruct (IH s1a s2a a1 b1 c1 d1 e1a e2a)
      as (s1' & s2' & a' & b' & c' & d' & e1' & e2' & Hrun & ? & ? & ? & ?
          & Hq1 & Hq2 & Hq3);
      [lia..|].
    exists s1', s2', a', b', c', d', e1', e2'. split_and!; try assumption.
    + cbn [LeftRightModel.count_frames]. rewrite Hhead. simpl. rewrite Hprev. simpl.
      rewrite decide_False by exact Hne. rewrite HS. simpl. rewrite HT. simpl.
      rewrite HE. simpl. exact Hrun.
    + simpl length. lia.
    + simpl length. lia.
    + simpl length. lia.
Qed.

Lemma Q2R_ratio (c n : Z) : (n <> 0)%Z -> Q2R (inject_Z c / inject_Z n) = (IZR c / IZR n)%R.
Proof.
  intros Hn. rewrite Q2R_div.
  - unfold Q2R. simpl. field. now apply not_0_IZR.
  - intros E. apply Hn. unfold Qeq in E. simpl in E. lia.
Qed.

Lemma normalise_pair_stochastic (a b : Z) :
  (0 <= a)%Z -> (0 <= b)%Z -> (0 < a + b)%Z ->
  LeftRightModel.stochastic (LeftRightModel.normalise_log2 [a; b]).
Proof.
  intros Ha Hb Hab. unfold LeftRightModel.stochastic, LeftRightModel.normalise_log2.
  set (n := fold_right Z.add 0%Z [a; b]).
  assert (Hn : n = (a + b)%Z) by (unfold n; simpl; lia). clearbody n.
  assert (Hnpos : (0 < IZR n)%R) by (apply IZR_lt; lia).
  assert (Hpos : forall c, (0 < c)%Z ->
            Numpy.exp2 (Numpy.log2 (Q2R (inject_Z c / inject_Z n)))
            = (IZR c / IZR n)%R).
  { intros c Hc. rewrite Q2R_ratio by lia. apply exp2_log2.
    apply Rdiv_lt_0_compat; [now apply IZR_lt|exact Hnpos]. }
  assert (Hsum : (IZR a + IZR b = IZR n)%R) by (rewrite Hn; now rewrite plus_IZR).
  cbn [map]. rewrite !(decide_False (P := n = 0%Z)) by lia.
  destruct (decide (a = 0%Z)) as [Ea|Ea]; destruct (decide (b = 0%Z)) as [Eb|Eb];
    try lia; (eexists; split; [reflexivity|]); simpl; rewrite ?Hpos by lia.
  - subst a. simpl in Hsum. rewrite <- Hsum. field. lra.
  - subst b. simpl in Hsum. rewrite <- Hsum. field. lra.
  - rewrite <- Hsum. field. lra.
Qed.

(** X15.  When the first frame id of the training set is the frame id of
    a labelled frame, the counting loop of [train_time_independent] never
    raises and counts every frame, whether or not that frame is labelled:
    the start counts and the end counts each sum to the number of frames,
    and the transition counts sum to that number times the number of frames
    minus one (the inner loop runs over [wvd.keys()], not over the frame's
    segments).  The start and end vectors that result are stochastic. *)
Theorem train_time_independent_counts {Seg} (wvd : WVD Seg) (traj : Traj) (fid0 : Z) :
  head (map fst wvd) = Some fid0 ->
  fid0 ∈ EDTwoState.frames traj ->
  exists cS cT cE S T E,
    LeftRightModel.count_frames
      (EDTwoState._make_classifer traj wvd traj) (map fst wvd) (map fst wvd)
      ([0; 0]%Z, [[0; 0]; [0; 0]]%Z, [0; 0]%Z) = Some (cS, cT, cE) /\
    total cS = Z.of_nat (length wvd) /\
    total cE = Z.of_nat (length wvd) /\
    total (concat cT) = (Z.of_nat (length wvd) * (Z.of_nat (length wvd) - 1))%Z /\
    LeftRightModel.train_time_independent wvd traj = Some (S, T, E) /\
    LeftRightModel.stochastic S /\ LeftRightModel.stochastic E.
Proof.
  intros Hhead Hframe.
  assert (Hlen : length (map fst wvd) = length wvd) by apply length_map.
  assert (Hpos : (0 < length wvd)%nat).
  { destruct wvd; [discriminate Hhead|simpl; lia]. }
  destruct (count_frames_total (EDTwoState._make_classifer traj wvd traj)
              (map fst wvd) (map fst wvd) fid0 0 0 0 0 0 0 0 0 Hhead)
    as (s1 & s2 & a & b & c & d & e1 & e2 & Hrun & Hs1 & Hs2 & He1 & He2
        & HS & HE & HT); try lia.
  - intros fid wid. eexists. split; [reflexivity|]. unfold class_value.
    destruct (decide _); [destruct (bool_decide _)|]; simpl; auto.
  - intros fid. unfold EDTwoState._make_classifer.
    rewrite decide_True by exact Hframe. destruct (bool_decide _); discriminate.
  - rewrite Hlen in HS, HE, HT.
    assert (Htail : Z.of_nat (length (tail (map fst wvd))) = (Z.of_nat (length wvd) - 1)%Z).
    { destruct wvd; [simpl in Hpos; lia|]. simpl. rewrite length_map. lia. }
    rewrite Htail in HT.
    eexists _, _, _, _, _, _. split; [exact Hrun|].
    unfold LeftRightModel.train_time_independent. rewrite Hrun.
    unfold total. simpl. split_and!; try lia; try reflexivity.
    + apply normalise_pair_stochastic; lia.
    + apply normalise_pair_stochastic; lia.
Qed.

Lemma train_time_independent_counts_witness :
  exists cS cT cE,
    LeftRightModel.count_frames
      (EDTwoState._make_classifer Ex.traj_single
         ([(0%Z, [(0%Z, 0%Q)]); (1%Z, [(0%Z, 0%Q)]); (2%Z, [(0%Z, 0%Q)])] : WVD Q)
         Ex.traj_single)
      [0; 1; 2]%Z [0; 1; 2]%Z
      ([0; 0]%Z, [[0; 0]; [0; 0]]%Z, [0; 0]%Z) = Some (cS, cT, cE) /\
    total cS = 3%Z /\ total cE = 3%Z /\ total (concat cT) = 6%Z.
Proof.
  destruct (train_time_independent_counts
              ([(0%Z, [(0%Z, 0%Q)]); (1%Z, [(0%Z, 0%Q)]); (2%Z, [(0%Z, 0%Q)])] : WVD Q)
              Ex.traj_single 0%Z)
    as (cS & cT & cE & _ & _ & _ & Hrun & HS & HE & HT & _).
  - reflexivity.
  - refine (bool_decide_unpack _ _). vm_compute. exact I.
  - exists cS, cT, cE. split_and!; assumption.
Defined.

(** * Further properties of the subclasses *)

(** X16.  When [EDTwoState(wvd, traj, data)] returns, the estimator has the
    states "junk" and "whiskers", the classifier made from [traj], and for
    each of the two states exactly one stored histogram per registered
    feature, each with 63 bins and the log2 of a probability vector. *)
Theorem two_state_init_fitted {Seg} (features : list (Seg -> Q)) (wvd : WVD Seg)
    (traj : Traj) (data : option (list Row)) (e : EmmissionDistributions Seg) :
  EDTwoState.init features wvd traj data true = Some e ->
  _features e = features /\
  _states e = ["junk"; "whiskers"]%string /\
  _classifier e = EDTwoState._make_classifer traj /\
  forall st, st ∈ ["junk"; "whiskers"]%string ->
    exists hs,
      _distributions e !! st = Some hs /\ length hs = length features /\
      Forall (fun h => length h = 63%nat /\ normalised h) hs.
Proof.
  unfold EDTwoState.init, init. intros Hest.
  destruct (estimate_keeps_fields _ _ _ _ _ Hest) as (Hf & Hs & Hc & _).
  split_and!; try assumption.
  intros st Hst. apply list_elem_of_lookup_1 in Hst as [k Hk].
  destruct (estimate_appends_histograms
              (blank features ["junk"; "whiskers"]%string
                     (EDTwoState._make_classifer traj))
              e wvd traj data k st []
              (length_replicate _ _) (length_replicate _ _))
    as (new & Hnew & Hlen & Hall & _).
  - simpl. repeat constructor; [|apply not_elem_of_nil].
    intros H. apply list_elem_of_singleton in H. discriminate H.
  - exact Hest.
  - exact Hk.
  - apply blank_distributions. eapply list_elem_of_lookup_2, Hk.
  - exists new. split_and!; assumption.
Qed.

Lemma two_state_init_fitted_witness :
  exists e,
    EDTwoState.init Ex.features Ex.wvd_0_63 Ex.traj_single None true = Some e /\
    _states e = ["junk"; "whiskers"]%string /\
    forall st, st ∈ ["junk"; "whiskers"]%string ->
      exists hs,
        _distributions e !! st = Some hs /\ length hs = 1%nat /\
        Forall (fun h => length h = 63%nat /\ normalised h) hs.
Proof.
  destruct (EDTwoState.init Ex.features Ex.wvd_0_63 Ex.traj_single None true)
    as [e|] eqn:He; [|vm_compute in He; discriminate He].
  exists e. split; [reflexivity|].
  destruct (two_state_init_fitted Ex.features Ex.wvd_0_63 Ex.traj_single None e He)
    as (_ & Hs & _ & Hall).
  split; [exact Hs|exact Hall].
Defined.

(** X17.  Retraining a multi-state estimator fails on new state names:
    with at least one registered feature, [EDMultiState.estimate] raises
    when the training set it is given yields a state name for which the
    object has no entry in [_distributions] (the entries are created once,
    in [__init__]). *)
Theorem multi_state_estimate_unknown_name_raises {Seg} (y0 : Seg -> Q)
    (self : EmmissionDistributions Seg) (wvd : WVD Seg) (traj : Traj)
    (data : option (list Row)) (name : string) :
  (0 < length (_features self))%nat ->
  name ∈ EDMultiState.states (EDMultiState.build y0 wvd traj) ->
  _distributions self !! name = None ->
  EDMultiState.estimate y0 self wvd traj data = None.
Proof.
  intros Hn Hname Hnone. unfold EDMultiState.estimate.
  apply (estimate_missing_key _ wvd traj data name).
  - exact Hn.
  - simpl. unfold EDMultiState._states. now apply elem_of_elements.
  - exact Hnone.
Qed.

Lemma multi_state_estimate_unknown_name_raises_witness :
  exists self,
    EDMultiState.init (fun seg : Q => seg) Ex.features Ex.wvd_single Ex.traj_single
                      None true = Some self /\
    EDMultiState.estimate (fun seg : Q => seg) self Ex.wvd_three Ex.traj_middle None
    = None.
Proof.
  destruct (EDMultiState.init (fun seg : Q => seg) Ex.features Ex.wvd_single
              Ex.traj_single None true) as [self|] eqn:He;
    [|vm_compute in He; discriminate He].
  exists self. split; [reflexivity|].
  unfold EDMultiState.init, init in He.
  destruct (estimate_keeps_fields _ _ _ _ _ He) as (Hf & _ & _ & _ & _ & Hdom).
  apply (multi_state_estimate_unknown_name_raises (fun seg : Q => seg) self
           Ex.wvd_three Ex.traj_middle None "junk0"%string).
  - rewrite Hf. simpl. lia.
  - refine (bool_decide_unpack _ _). vm_compute. exact I.
  - apply not_elem_of_dom. rewrite Hdom. apply not_elem_of_dom.
    vm_compute. reflexivity.
Defined.

(** X18.  The feature table of a multi-state estimator is always built:
    with the classifier [_make_classifer(wvd, traj)] made from the same
    training set, [_all_features(wvd, traj)] returns one row per segment,
    and the class of every row is -1 or a position of [_states]. *)
Theorem multi_state_training_table {Seg} (y0 : Seg -> Q) (features : list (Seg -> Q))
    (states : list string) (wvd : WVD Seg) (traj : Traj) :
  exists tbl,
    _all_features (blank features states (EDMultiState._make_classifer y0 wvd traj))
                  wvd traj = Some tbl /\
    length tbl = _count_whiskers wvd /\
    Forall (fun row =>
              row_class row = (-1)%Z \/
              (0 <= row_class row
               < Z.of_nat (length (EDMultiState._states (EDMultiState.build y0 wvd traj))))%Z)
           tbl.
Proof.
  assert (Hseg : forall fid wid w, (fid, wid, w) ∈ iter_whiskers wvd ->
            exists wv w', (fid, wv) ∈ wvd /\ (wid, w') ∈ wv).
  { intros fid wid w Hin. unfold iter_whiskers in Hin.
    apply list_elem_of_In, in_flat_map in Hin as ([fid' wv] & Hwv & Hin).
    apply in_map_iff in Hin as ([wid' w'] & E & Hw). injection E as -> -> ->.
    exists wv, w. now rewrite !list_elem_of_In. }
  destruct (all_features_table
              (blank features states (EDMultiState._make_classifer y0 wvd traj))
              wvd traj) as (tbl & Htbl & Hlen & Hrows).
  { intros fid wid w Hin. simpl.
    destruct (multi_state_classifier_total y0 wvd wvd traj traj fid wid) as [Hin' _].
    destruct (Hin' (Hseg _ _ _ Hin)) as (c & Hc & _). now exists c. }
  exists tbl. split_and!; [exact Htbl|exact Hlen|].
  apply Forall_lookup. intros j row Hrow.
  destruct (Forall2_lookup_r _ _ _ _ _ Hrows Hrow) as ([[fid wid] w] & Hj & Hc & _).
  simpl in Hc.
  destruct (multi_state_classifier_total y0 wvd wvd traj traj fid wid) as [Hin' _].
  destruct Hin' as (c & Hc' & Hout & Hidx).
  { eapply Hseg, list_elem_of_lookup_2, Hj. }
  assert (c = row_class row) as <- by congruence.
  destruct (decide (fid ∈ EDTwoState.frames traj)) as [Hf|Hf]; [|left; auto].
  right. destruct (Hidx Hf) as (i & name & t & -> & Hi & _).
  apply lookup_lt_Some in Hi. lia.
Qed.

(** * Negative bin indices *)

Lemma getitem_wrapped {A} (l : list A) (j : Z) (d : A) :
  (- Z.of_nat (length l) <= j < Z.of_nat (length l))%Z ->
  getitem l j = Some (nth (wrapped_position (length l) j) l d).
Proof.
  intros Hj. unfold getitem, py_index, wrapped_position.
  destruct (0 <=? j)%Z eqn:E0.
  - apply Z.leb_le in E0. rewrite (proj2 (Z.ltb_lt j _)) by lia. simpl.
    destruct (nth_lookup_or_length l (Z.to_nat j) d) as [->|Hlen]; [reflexivity|lia].
  - apply Z.leb_gt in E0. rewrite (proj2 (Z.leb_le _ _)) by lia. simpl.
    destruct (nth_lookup_or_length l (Z.to_nat (Z.of_nat (length l) + j)) d)
      as [->|Hlen]; [reflexivity|lia].
Qed.

(** X19.  [evaluate] accepts negative bin indices.  For an estimator that
    stores at least one histogram per registered feature for the state,
    and a segment whose every bin index lies in [[-len, len)] for its
    histogram of [len] bins, [evaluate] returns the sum of the stored
    entries, where a negative index [j] reads the bin [len + j]: a value up
    to [len] bin widths below the fitted minimum is scored against a bin at
    the upper end of the range. *)
Theorem evaluate_wraps_negative_indices {Seg} (self : EmmissionDistributions Seg)
    (seg : Seg) (st : string) (hs : list (list R)) :
  _distributions self !! st = Some hs ->
  (length (_features self) <= length hs)%nat ->
  in_wrapped_range self seg hs ->
  evaluate self seg st = Some (fold_left Rplus (looked_up_wrapped self seg hs) 0%R).
Proof.
  intros Hhs Hlen Hrange. unfold evaluate.
  assert (Hmap : mapM (fun '(i, j) =>
              hs0 ← _distributions self !! st;
              h ← hs0 !! i;
              match j with Bin j0 => getitem h j0 | NonFinite => None end)
            (enumerate (_discritize self (feature self seg)))
          = Some (looked_up_wrapped self seg hs)).
  { apply mapM_Some_2, Forall2_same_length_lookup_2.
    - unfold enumerate, _discritize, looked_up_wrapped, bin_args, feature in *.
      rewrite length_imap, !length_map, !length_zip_with, length_map. lia.
    - intros i [i' j] y Hx Hy.
      unfold enumerate in Hx. apply list_lookup_imap_Some in Hx as (j' & Hj & E).
      injection E as <- <-.
      unfold _discritize in Hj. rewrite list_lookup_fmap in Hj.
      apply fmap_Some in Hj as ([val [db bmin]] & Hz & ->).
      apply lookup_zip_with_Some in Hz as (? & ? & E & Hval & Hz).
      injection E as <- <-.
      apply lookup_zip_with_Some in Hz as (? & ? & E & Hdb & Hbmin).
      injection E as <- <-.
      unfold looked_up_wrapped in Hy. rewrite list_lookup_fmap in Hy.
      apply fmap_Some in Hy as ([val' [db' [bmin' h]]] & Hz & ->).
      pose proof (proj1 (Forall_lookup _ _) Hrange _ _ Hz) as [Hdb0 Hidx].
      unfold bin_args in Hz.
      apply lookup_zip_with_Some in Hz as (? & ? & E & Hval' & Hz).
      injection E as <- <-.
      apply lookup_zip_with_Some in Hz as (? & ? & E & Hdb' & Hz).
      injection E as <- <-.
      apply lookup_zip_with_Some in Hz as (? & ? & E & Hbmin' & Hh).
      injection E as <- <-.
      assert (val' = val) as -> by congruence.
      assert (db' = db) as -> by congruence.
      assert (bmin' = bmin) as -> by congruence.
      rewrite Hhs. simpl. rewrite Hh. simpl.
      destruct (Qeq_bool db 0) eqn:E.
      + apply Qeq_bool_iff in E. contradiction.
      + now apply getitem_wrapped. }
  rewrite Hmap. reflexivity.
Qed.

Lemma evaluate_wraps_negative_indices_witness :
  exists e hs,
    estimate (blank Ex.features Ex.states Ex.all_junk) Ex.wvd_0_63 [] None = Some e /\
    _distributions e !! "junk"%string = Some hs /\
    in_wrapped_range e (-63)%Q hs /\
    evaluate e (-63)%Q "junk"%string
    = Some (fold_left Rplus (looked_up_wrapped e (-63)%Q hs) 0%R).
Proof.
  eexists _, _.
  split; [vm_compute; reflexivity|].
  split; [vm_compute; reflexivity|].
  split.
  - constructor; [|constructor].
    split; [intros H; vm_compute in H; discriminate H|].
    vm_compute. split; [intros H; discriminate H|reflexivity].
  - refine (evaluate_wraps_negative_indices _ (-63)%Q "junk"%string _ _ _ _).
    + vm_compute. reflexivity.
    + vm_compute. lia.
    + constructor; [|constructor].
      split; [intros H; vm_compute in H; discriminate H|].
      vm_compute. split; [intros H; discriminate H|reflexivity].
Defined.

(** * When [estimate] returns *)

Lemma append_histograms_returns (data : list Row) (v b : list Q)
    (d : gmap string (list (list R))) (ks : list (nat * string)) :
  Forall (fun p => is_Some (d !! p.2)) ks ->
  is_Some (append_histograms data v b d ks).
Proof.
  revert d. induction ks as [|[k st] ks IH]; intros d Hall; simpl.
  - now eexists.
  - inversion Hall as [|? ? [hs Hhs] Hrest]; subst. simpl in Hhs.
    rewrite Hhs. simpl. apply IH.
    eapply Forall_impl; [exact Hrest|]. intros [k' st'] Hs. simpl in *.
    destruct (decide (st = st')) as [->|Hne].
    + rewrite lookup_insert_eq. now eexists.
    + rewrite lookup_insert_ne by exact Hne. exact Hs.
Qed.

Lemma estimate_features_returns {Seg} (data : list Row)
    (self : EmmissionDistributions Seg) (indices : list nat) :
  data <> [] ->
  (forall i row, i ∈ indices -> row ∈ data -> (i < length (row_fv row))%nat) ->
  (forall st, st ∈ _states self -> is_Some (_distributions self !! st)) ->
  is_Some (estimate_features data self indices).
Proof.
  intros Hne. revert self.
  induction indices as [|i rest IH]; intros self Hcols Hkeys.
  - simpl. now eexists.
  - assert (Hcol : is_Some (column data i)).
    { unfold column. apply mapM_is_Some, Forall_forall. intros row Hrow. simpl.
      apply lookup_lt_is_Some. apply Hcols; [apply list_elem_of_here|exact Hrow]. }
    destruct Hcol as [v Hv].
    destruct (column_rows _ _ _ Hv) as [Hlen _].
    destruct v as [|x v].
    { destruct data; [congruence|discriminate Hlen]. }
    cbn [estimate_features]. rewrite Hv.
    cbn [mbind option_bind Numpy.amin Numpy.amax].
    match goal with
    | |- is_Some (d ← append_histograms ?dt ?vv ?bb ?dd ?ks; _) =>
        destruct (append_histograms_returns dt vv bb dd ks) as [d Hd]
    end.
    { apply Forall_forall. intros [k st] Hin. simpl.
      apply Hkeys. unfold enumerate in Hin.
      apply list_elem_of_lookup_1 in Hin as [j Hj].
      apply list_lookup_imap_Some in Hj as (st' & Hst & E). injection E as -> ->.
      eapply list_elem_of_lookup_2, Hst. }
    rewrite Hd. cbn [mbind option_bind]. apply IH.
    + intros j row Hj Hrow. apply Hcols; [now apply list_elem_of_further|exact Hrow].
    + intros st Hst. simpl in Hst |- *.
      apply elem_of_dom. rewrite (append_histograms_dom (Seg:=Seg) _ _ _ _ _ _ Hd).
      apply elem_of_dom. simpl. now apply Hkeys.
Qed.

Lemma estimate_total {Seg} (self : EmmissionDistributions Seg)
    (wvd : WVD Seg) (traj : Traj) :
  (forall fid wid w, (fid, wid, w) ∈ iter_whiskers wvd ->
     is_Some (_classifier self wvd traj fid wid)) ->
  (0 < _count_whiskers wvd)%nat ->
  (forall st, st ∈ _states self -> is_Some (_distributions self !! st)) ->
  is_Some (estimate self wvd traj None).
Proof.
  intros Hclass Hcount Hkeys.
  destruct (all_features_table self wvd traj Hclass) as (tbl & Htbl & Hlen & Hrows).
  unfold estimate, training_table. rewrite Htbl. cbn [mbind option_bind].
  apply estimate_features_returns.
  - intros ->. simpl in Hlen. lia.
  - intros i row Hi Hrow. apply elem_of_seq in Hi.
    apply list_elem_of_lookup_1 in Hrow as [j Hj].
    destruct (Forall2_lookup_r _ _ _ _ _ Hrows Hj) as ([[fid wid] w] & _ & H).
    destruct H as (_ & _ & _ & _ & Hfv). lia.
  - exact Hkeys.
Qed.

Lemma iter_whiskers_segment {Seg} (wvd : WVD Seg) (fid wid : Z) (w : Seg) :
  (fid, wid, w) ∈ iter_whiskers wvd ->
  exists wv w', (fid, wv) ∈ wvd /\ (wid, w') ∈ wv.
Proof.
  intros Hin. unfold iter_whiskers in Hin.
  apply list_elem_of_In, in_flat_map in Hin as ([fid' wv] & Hwv & Hin).
  apply in_map_iff in Hin as ([wid' w'] & E & Hw). injection E as -> -> ->.
  exists wv, w. now rewrite !list_elem_of_In.
Qed.

(** X20.  [estimate(wvd, traj)] returns on a usable training set: when
    the classifier returns on every segment of [wvd], [wvd] holds at least
    one segment, and every state of the object has an entry in
    [_distributions], the call raises nothing. *)
Theorem estimate_returns {Seg} (self : EmmissionDistributions Seg)
    (wvd : WVD Seg) (traj : Traj) :
  (forall fid wid w, (fid, wid, w) ∈ iter_whiskers wvd ->
     is_Some (_classifier self wvd traj fid wid)) ->
  (0 < _count_whiskers wvd)%nat ->
  (forall st, st ∈ _states self -> is_Some (_distributions self !! st)) ->
  is_Some (estimate self wvd traj None).
Proof. apply estimate_total. Qed.

Lemma estimate_returns_witness :
  is_Some (estimate (blank Ex.features Ex.states Ex.all_junk) Ex.wvd_0_63 [] None).
Proof.
  apply (estimate_returns (blank Ex.features Ex.states Ex.all_junk) Ex.wvd_0_63 []).
  - intros fid wid w _. simpl. now eexists.
  - vm_compute. lia.
  - intros st Hst. rewrite blank_distributions by exact Hst. now eexists.
Defined.

(** X21.  Both subclasses can be constructed from any training set that
    holds at least one segment: [EDTwoState(wvd, traj)] and
    [EDMultiState(wvd, traj)] return, whatever the trajectories are. *)
Theorem subclass_init_returns {Seg} (y0 : Seg -> Q) (features : list (Seg -> Q))
    (wvd : WVD Seg) (traj : Traj) :
  (0 < _count_whiskers wvd)%nat ->
  is_Some (EDTwoState.init features wvd traj None true) /\
  is_Some (EDMultiState.init y0 features wvd traj None true).
Proof.
  intros Hcount. split.
  - unfold EDTwoState.init, init. apply estimate_total.
    + intros fid wid w _. simpl. now eexists.
    + exact Hcount.
    + intros st Hst. simpl in Hst. rewrite blank_distributions by exact Hst.
      now eexists.
  - unfold EDMultiState.init, init. apply estimate_total.
    + intros fid wid w Hin. simpl.
      destruct (multi_state_classifier_total y0 wvd wvd traj traj fid wid) as [Hin' _].
      destruct (Hin' (iter_whiskers_segment _ _ _ _ Hin)) as (c & Hc & _).
      now exists c.
    + exact Hcount.
    + intros st Hst. simpl in Hst. rewrite blank_distributions by exact Hst.
      now eexists.
Qed.

Lemma subclass_init_returns_witness :
  is_Some (EDTwoState.init Ex.features Ex.wvd_three Ex.traj_middle None true) /\
  is_Some (EDMultiState.init (fun seg : Q => seg) Ex.features Ex.wvd_three
                             Ex.traj_middle None true).
Proof.
  apply (subclass_init_returns (fun seg : Q => seg) Ex.features Ex.wvd_three
                               Ex.traj_middle).
  vm_compute. lia.
Defined.

(** * A supplied feature table *)

Lemma reclassify_same_segments {Seg} (self : EmmissionDistributions Seg)
    (wvd : WVD Seg) (traj : Traj) (data tbl : list Row) :
  Forall2 (fun r r' =>
             _classifier self wvd traj (row_fid r') (row_wid r') = Some (row_class r') /\
             row_fid r = row_fid r' /\ row_wid r = row_wid r' /\
             row_fv r = row_fv r') data tbl ->
  reclassify self wvd traj data = Some tbl.
Proof.
  intros H. unfold reclassify. apply mapM_Some_2.
  eapply Forall2_impl; [exact H|].
  intros r [c fid wid fv] (Hc & Hfid & Hwid & Hfv). simpl in *.
  rewrite Hfid, Hwid, Hc, Hfv. reflexivity.
Qed.

(** X22.  The class column of a supplied table is ignored.  A table that
    agrees with [_all_features(wvd, traj)] on the frame id, the segment id
    and the feature values of every row, supplied as [data], makes
    [estimate] do exactly what it does without [data]: the class of every
    row is recomputed by the classifier. *)
Theorem estimate_supplied_table {Seg} (self : EmmissionDistributions Seg)
    (wvd : WVD Seg) (traj : Traj) (data tbl : list Row) :
  _all_features self wvd traj = Some tbl ->
  Forall2 (fun r r' => row_fid r = row_fid r' /\ row_wid r = row_wid r' /\
                       row_fv r = row_fv r') data tbl ->
  estimate self wvd traj (Some data) = estimate self wvd traj None.
Proof.
  intros Htbl Hsame. unfold estimate, training_table. rewrite Htbl.
  rewrite (reclassify_same_segments self wvd traj data tbl); [reflexivity|].
  unfold _all_features in Htbl. apply mapM_Some in Htbl.
  apply Forall2_same_length_lookup_2; [eapply Forall2_length, Hsame|].
  intros j r r' Hr Hr'.
  destruct (Forall2_lookup_r _ _ _ _ _ Htbl Hr') as ([[fid wid] w] & _ & Hrow).
  apply bind_Some in Hrow as (c & Hc & E). injection E as <-. simpl.
  split; [exact Hc|].
  exact (Forall2_lookup_lr _ _ _ _ _ _ Hsame Hr Hr').
Qed.

Lemma estimate_supplied_table_witness :
  estimate (blank Ex.features Ex.states Ex.all_junk) Ex.wvd_0_63 []
           (Some [mkRow 1 0 0 [0%Q]; mkRow (-1) 0 1 [63%Q]])
  = estimate (blank Ex.features Ex.states Ex.all_junk) Ex.wvd_0_63 [] None /\
  is_Some (estimate (blank Ex.features Ex.states Ex.all_junk) Ex.wvd_0_63 [] None).
Proof.
  split.
  - apply (estimate_supplied_table _ _ _ _
             [mkRow 0 0 0 [0%Q]; mkRow 0 0 1 [63%Q]]).
    + vm_compute. reflexivity.
    + repeat constructor.
  - vm_compute. now eexists.
Defined.
